(** * gatonaranja: the command parser and the download/cut pipeline

    A shallow embedding of [main.go]: the span parser ([Spot2Second],
    [ParseStartEndSeconds]), the command parser
    ([LoadDownloadConfigFromMsg]), the planner and the orchestrator
    ([BuildYtdlpCmd], [CutVideo], [DownloadVideo]) and the access policy
    ([UserIsAuthorized]).

    Go strings are byte sequences: they are modelled by [string], one
    [ascii] per byte.  Go's [int] is taken at 64 bits, with its wrap-around
    written out.  A Go [error] is [option string], [None] being [nil]. *)

From Stdlib Require Import ZArith List String Ascii Bool Lia DecimalString.
From Stdlib Require Import DecimalPos.
Import ListNotations.

Local Open Scope string_scope.
Local Open Scope Z_scope.

Definition error : Type := option string.

Definition isNil (e : error) : bool :=
  match e with None => true | Some _ => false end.

(** ** Go's [int] *)

Module GoInt.

Definition intSize : Z := 64.
Definition minInt : Z := - 2 ^ (intSize - 1).
Definition maxInt : Z := 2 ^ (intSize - 1) - 1.

Definition wrap (z : Z) : Z := (z - minInt) mod 2 ^ intSize + minInt.

Definition add (a b : Z) : Z := wrap (a + b).
Definition sub (a b : Z) : Z := wrap (a - b).
Definition mul (a b : Z) : Z := wrap (a * b).

Definition inRange (z : Z) : Prop := minInt <= z <= maxInt.

End GoInt.

(** ** The part of package [strings] the program uses *)

Module Strings.

(** Bytes of a string, as numbers. *)
Definition code (c : ascii) : Z := Z.of_N (N_of_ascii c).

(** [strings.Split(s, sep)] for a separator of one byte, the only kind the
    program splits on: the pieces between the occurrences of [sep], one
    more than there are occurrences. *)
Fixpoint Split (s : string) (sep : ascii) : list string :=
  match s with
  | EmptyString => [EmptyString]
  | String c s' =>
      if Ascii.eqb c sep then EmptyString :: Split s' sep
      else match Split s' sep with
           | [] => [String c EmptyString]
           | p :: ps => String c p :: ps
           end
  end.

(** [xs[i]] on a slice of strings.  Every index the program uses is guarded
    by a length test (or by [Split] returning at least one piece), so the
    default is never what is read: see [Split_not_nil] and the length tests
    in the functions below. *)
Definition index (xs : list string) (i : nat) : string := nth i xs EmptyString.

Definition isUpper (c : ascii) : bool := (65 <=? code c) && (code c <=? 90).

Definition lowerByte (c : ascii) : ascii :=
  if isUpper c then ascii_of_N (N_of_ascii c + 32) else c.

Fixpoint isASCII (s : string) : bool :=
  match s with
  | EmptyString => true
  | String c s' => (code c <? 128) && isASCII s'
  end.

Fixpoint mapBytes (f : ascii -> ascii) (s : string) : string :=
  match s with
  | EmptyString => EmptyString
  | String c s' => String (f c) (mapBytes f s')
  end.

(** [s[:n]], for [n] up to the length of [s], as it is wherever the program
    slices: it cuts an extension off its own path, or the last byte off a
    name that ends in [.mp4]. *)
Definition sliceTo (s : string) (n : nat) : string := substring 0 n s.

(** Does the byte [c] occur in [s]? *)
Fixpoint contains (c : ascii) (s : string) : bool :=
  match s with
  | EmptyString => false
  | String c' s' => Ascii.eqb c' c || contains c s'
  end.

End Strings.

(** ** [strconv.Atoi] *)

Module Strconv.

Definition isDigit (c : ascii) : bool :=
  (48 <=? Strings.code c) && (Strings.code c <=? 57).

(** The value of a run of decimal digits, most significant first; [None]
    when a byte is not a digit. *)
Fixpoint digits (acc : Z) (s : string) : option Z :=
  match s with
  | EmptyString => Some acc
  | String c s' =>
      if isDigit c then digits (acc * 10 + (Strings.code c - 48)) s' else None
  end.

Definition errSyntax : error := Some "invalid syntax".
Definition errRange : error := Some "value out of range".

(** [strconv.Atoi(s)]: an optional sign, then one digit or more, base 10,
    no underscores; the value has to fit an [int], otherwise the nearest
    bound comes back with a range error.  The callers drop the error's
    text, which is abbreviated here. *)
Definition Atoi (s : string) : Z * error :=
  let signed :=
    match s with
    | String c _ => Ascii.eqb c "-" || Ascii.eqb c "+"
    | EmptyString => false
    end in
  let neg :=
    match s with
    | String c _ => Ascii.eqb c "-"
    | EmptyString => false
    end in
  let body :=
    match s with
    | String _ r => if signed then r else s
    | EmptyString => s
    end in
  match body with
  | EmptyString => (0, errSyntax)
  | _ =>
      match digits 0 body with
      | None => (0, errSyntax)
      | Some n =>
          let v := if neg then - n else n in
          if v <? GoInt.minInt then (GoInt.minInt, errRange)
          else if GoInt.maxInt <? v then (GoInt.maxInt, errRange)
          else (v, None)
      end
  end.

End Strconv.

(** ** The part of package [regexp] the program uses

    The pattern is built from literals, the class [[\d]], concatenation,
    [?] and [{1,2}]; parentheses only group.  [MatchString] looks for a
    match anywhere in the string: the pattern has no anchors. *)

Module Regexp.

Inductive regexp : Type :=
| Literal (c : ascii)
| DigitClass
| Concat (r1 r2 : regexp)
| Quest (r : regexp).

(** [r{1,2}]. *)
Definition Repeat12 (r : regexp) : regexp := Concat r (Quest r).

(** The strings a pattern denotes. *)
Inductive Matches : regexp -> string -> Prop :=
| MLiteral c : Matches (Literal c) (String c EmptyString)
| MDigit c : Strconv.isDigit c = true -> Matches DigitClass (String c EmptyString)
| MConcat r1 r2 s1 s2 :
    Matches r1 s1 -> Matches r2 s2 -> Matches (Concat r1 r2) (s1 ++ s2)
| MQuestSkip r : Matches (Quest r) EmptyString
| MQuestTake r s : Matches r s -> Matches (Quest r) s.

(** Backtracking matcher: [run r s k] holds when [r] matches a prefix of
    [s] whose remainder the continuation [k] accepts. *)
Fixpoint run (r : regexp) (s : string) (k : string -> bool) : bool :=
  match r with
  | Literal c =>
      match s with
      | String c' s' => Ascii.eqb c' c && k s'
      | EmptyString => false
      end
  | DigitClass =>
      match s with
      | String c' s' => Strconv.isDigit c' && k s'
      | EmptyString => false
      end
  | Concat r1 r2 => run r1 s (fun s' => run r2 s' k)
  | Quest r1 => run r1 s k || k s
  end.

(** A match that starts at the first byte and may stop anywhere. *)
Definition matchPrefix (re : regexp) (s : string) : bool :=
  run re s (fun _ => true).

(** A match of the whole string. *)
Definition matchWhole (re : regexp) (s : string) : bool :=
  run re s (fun rest => String.eqb rest EmptyString).

(** [re.MatchString(s)]: does [s] contain a match of [re]? *)
Fixpoint MatchString (re : regexp) (s : string) : bool :=
  matchPrefix re s ||
  match s with
  | EmptyString => false
  | String _ s' => MatchString re s'
  end.

End Regexp.

Import Strings Strconv Regexp.

(** ** The span parser *)

(** [([\d]{1,2}:)?[\d]{1,2}:[\d]{1,2}] *)
Definition spotPattern : regexp :=
  Concat (Quest (Concat (Repeat12 DigitClass) (Literal ":")))
    (Concat (Repeat12 DigitClass)
       (Concat (Literal ":") (Repeat12 DigitClass))).

(** [([\d]{1,2}:)?[\d]{1,2}:[\d]{1,2}-([\d]{1,2}:)?[\d]{1,2}:[\d]{1,2}] *)
Definition VideoStartEndPattern : regexp :=
  Concat spotPattern (Concat (Literal "-") spotPattern).

Definition InvalidVideoSecond : Z := -1.

Definition Spot2Second (spot : string) : Z * error :=
  let parts := Split spot ":" in
  let partsLen := List.length parts in
  let failure : Z * error := (0, Some ("unable to parse spot " ++ spot)) in
  if (partsLen <? 2)%nat then failure else
  let '(seconds, err) := Atoi (index parts 1) in
  if negb (isNil err) then failure else
  if 59 <? seconds then failure else
  let '(minutes, err) := Atoi (index parts 0) in
  if negb (isNil err) then failure else
  if 59 <? minutes then failure else
  let second := GoInt.add seconds (GoInt.mul minutes 60) in
  if (partsLen =? 3)%nat then
    let '(hours, err) := Atoi (index parts 2) in
    if negb (isNil err) then failure else
    if 11 <? hours then failure else
    (GoInt.add second (GoInt.mul (GoInt.mul hours 60) 60), None)
  else (second, None).

Definition ParseStartEndSeconds (span : string) : Z * Z * error :=
  if negb (MatchString VideoStartEndPattern span) then
    (0, 0, Some ("unable to parse video span " ++ span))
  else
  let parts := Split span "-" in
  if negb (List.length parts =? 2)%nat then
    (0, 0, Some ("unable to parse video span " ++ span))
  else
  let '(startSecond, err) := Spot2Second (index parts 0) in
  if negb (isNil err) then (0, 0, err) else
  let '(endSecond, err) := Spot2Second (index parts 1) in
  if negb (isNil err) then (0, 0, err) else
  if endSecond <=? startSecond then
    (0, 0, Some "start spot is after or at the same that the end spot")
  else (startSecond, endSecond, None).

(** ** The command parser *)

(** Package [net/url] is taken as given: [URL] stands for [*url.URL],
    [emptyURL] for [&url.URL{}], and [url_Parse] is [None] where
    [url.Parse] returns an error (whose text the caller drops). *)
Class NetURL : Type := {
  URL : Type;
  emptyURL : URL;
  url_Parse : string -> option URL
}.

(** Unicode's case tables are taken as given: [unicodeToLower] is
    [strings.Map(unicode.ToLower, s)], which [strings.ToLower] falls back on
    for a string with a byte outside ASCII. *)
Class Unicode : Type := {
  unicodeToLower : string -> string
}.

Section Command.

Context {net : NetURL} {uni : Unicode}.

(** [strings.ToLower]. *)
Definition ToLower (s : string) : string :=
  if isASCII s then mapBytes lowerByte s else unicodeToLower s.

Definition LoadDownloadConfigFromMsg (msg : string)
  : URL * Z * Z * bool * error :=
  let args := Split msg " " in
  match url_Parse (index args 0) with
  | None =>
      (emptyURL, InvalidVideoSecond, InvalidVideoSecond, false,
       Some "unable to parse the 1st argument (video URL)")
  | Some videoUrl =>
  let argsLen := List.length args in
  if (argsLen =? 1)%nat then
    (videoUrl, InvalidVideoSecond, InvalidVideoSecond, false, None)
  else
  let startSecond := InvalidVideoSecond in
  let endSecond := InvalidVideoSecond in
  let audioOnly := false in
  let secondArg := ToLower (index args 1) in
  if String.eqb secondArg "audio" then
    (videoUrl, startSecond, endSecond, true, None)
  else
  let '(startSecond, endSecond, err) := ParseStartEndSeconds secondArg in
  if negb (isNil err) then
    (emptyURL, InvalidVideoSecond, InvalidVideoSecond, false,
     Some "unable to parse the 2nd argument (video spots to make the cut or audio word)")
  else
  if (argsLen =? 2)%nat then
    (videoUrl, startSecond, endSecond, audioOnly, None)
  else
  if (3 <? argsLen)%nat then
    (emptyURL, InvalidVideoSecond, InvalidVideoSecond, false,
     Some "more than 3 arguments were used")
  else
  let thirdArg := index args 2 in
  if negb (String.eqb thirdArg "audio") then
    (emptyURL, InvalidVideoSecond, InvalidVideoSecond, false,
     Some "unable to parse the 3rd argument: this argument can only be the audio word")
  else (videoUrl, startSecond, endSecond, true, None)
  end.

End Command.

(** ** The access policy *)

Definition UserIsAuthorized (userId : Z) (authorizedUserIds : list Z) : bool :=
  if (List.length authorizedUserIds =? 0)%nat then true
  else
    (fix range (ids : list Z) : bool :=
       match ids with
       | [] => false
       | allowedUserId :: rest =>
           if userId =? allowedUserId then true else range rest
       end) authorizedUserIds.

(** ** The planner and the orchestrator *)

(** [exec.Cmd]: the program to run and its arguments, the program's name
    first. *)
Record Cmd : Type := { Path : string; Args : list string }.

(** [exec.Command(name, arg...)], for a [name] that [exec.LookPath] has
    resolved. *)
Definition exec_Command (name : string) (arg : list string) : Cmd :=
  {| Path := name; Args := name :: arg |}.

(** [fmt.Sprint] of an [int]: its decimal digits, after a minus sign when it
    is negative. *)
Definition Sprint (n : Z) : string := NilZero.string_of_int (Z.to_int n).

(** [filepath.Ext]: the suffix of the path that starts at the last dot of
    its last element, empty when that element has no dot.  The loop walks
    the path backwards, [back] being the bytes not yet seen, last first,
    and [seen] the suffix already passed. *)
Fixpoint extLoop (back : list ascii) (seen : string) : string :=
  match back with
  | [] => EmptyString
  | c :: more =>
      if Ascii.eqb c "/" then EmptyString
      else if Ascii.eqb c "." then String c seen
      else extLoop more (String c seen)
  end.

Definition filepath_Ext (path : string) : string :=
  extLoop (rev (list_ascii_of_string path)) EmptyString.

(** [lastIndexByte]; [None] stands for [-1]. *)
Fixpoint lastIndexByte (s : string) (c : ascii) : option nat :=
  match s with
  | EmptyString => None
  | String c' s' =>
      match lastIndexByte s' c with
      | Some i => Some (S i)
      | None => if Ascii.eqb c' c then Some 0%nat else None
      end
  end.

(** [prefixAndSuffix] of package [os]: a pattern is cut at its last star. *)
Definition prefixAndSuffix (pattern : string) : string * string * error :=
  if contains "/" pattern then
    (EmptyString, EmptyString, Some "pattern contains path separator")
  else
    match lastIndexByte pattern "*" with
    | Some pos =>
        (substring 0 pos pattern,
         substring (pos + 1) (String.length pattern - (pos + 1)) pattern,
         None)
    | None => (pattern, EmptyString, None)
    end.

(** The machine the program runs on: its file system, its search path, its
    random names and what the subprocesses do are taken as given.

    - [sys_LookPath] is [exec.LookPath];
    - [sys_OpenTemp] is the creation of the file of [os.CreateTemp]: from
      the directory, the prefix and the suffix of the pattern, the name up
      to the suffix, that is [joinPath(dir, prefix) + nextRandom()];
    - [sys_Close] is [f.Close()], whose result the program drops;
    - [sys_Remove] is [os.Remove];
    - [sys_Run] is [cmd.Run()]: the subprocess runs to its end. *)
Class System (World : Type) : Type := {
  sys_LookPath : string -> World -> (string * error) * World;
  sys_OpenTemp :
    string -> string -> string -> World -> (string * error) * World;
  sys_Close : string -> World -> World;
  sys_Remove : string -> World -> error * World;
  sys_Run : Cmd -> World -> error * World
}.

Section Pipeline.

Context {World : Type} {sys : System World}.

(** The state threaded through the pipeline: the world, and the commands
    run so far, oldest first. *)
Record State : Type := { world : World; ran : list Cmd }.

Definition M (A : Type) : Type := State -> A * State.

Definition ret {A : Type} (a : A) : M A := fun st => (a, st).

Definition bind {A B : Type} (m : M A) (f : A -> M B) : M B :=
  fun st => let '(a, st') := m st in f a st'.

Notation "x <- m ;; k" := (bind m (fun x => k))
  (at level 61, m at next level, right associativity).
Notation "' p <- m ;; k" := (bind m (fun x => let 'p := x in k))
  (at level 61, p pattern, m at next level, right associativity).

Definition liftSys {A : Type} (f : World -> A * World) : M A :=
  fun st =>
    let '(a, w) := f (world st) in (a, {| world := w; ran := ran st |}).

Definition exec_LookPath (file : string) : M (string * error) :=
  liftSys (sys_LookPath file).

(** [os.CreateTemp]; the file is returned by its name. *)
Definition os_CreateTemp (dir pattern : string) : M (string * error) :=
  match prefixAndSuffix pattern with
  | (_, _, Some e) => ret (EmptyString, Some e)
  | (prefix, suffix, None) =>
      ' (stem, err) <- liftSys (sys_OpenTemp dir prefix suffix) ;;
      match err with
      | Some e => ret (EmptyString, Some e)
      | None => ret (stem ++ suffix, None)
      end
  end.

Definition Close (f : string) : M unit :=
  liftSys (fun w => (tt, sys_Close f w)).

Definition os_Remove (name : string) : M error :=
  liftSys (sys_Remove name).

Definition Run (c : Cmd) : M error :=
  fun st =>
    let '(err, w) := sys_Run c (world st) in
    (err, {| world := w; ran := (ran st ++ [c])%list |}).

Definition CutVideo (videoFilename : string) (startSecond endSecond : Z)
    (audioOnly : bool) : M (string * error) :=
  ' (ffmpegPath, err) <- exec_LookPath "ffmpeg" ;;
  match err with
  | Some e => ret (EmptyString, Some ("unable to cut video: " ++ e))
  | None =>
  let videoFilenameExt := filepath_Ext videoFilename in
  let finalVideoFilename :=
    sliceTo videoFilename
      (String.length videoFilename - String.length videoFilenameExt) ++ "-cut" in
  let finalVideoFilename :=
    if audioOnly then finalVideoFilename ++ ".mp3"
    else finalVideoFilename ++ videoFilenameExt in
  let cutCmd :=
    exec_Command ffmpegPath
      [ "-ss"; Sprint startSecond; "-i"; videoFilename; "-t";
        Sprint (GoInt.sub endSecond startSecond); finalVideoFilename ] in
  err <- Run cutCmd ;;
  match err with
  | Some e => ret (EmptyString, Some ("unable to cut video: " ++ e))
  | None => ret (finalVideoFilename, None)
  end
  end.

Definition BuildYtdlpCmd (videoUrl : string) (audioOnly : bool)
  : M (string * string * list string * error) :=
  ' (ytdlpPath, err) <- exec_LookPath "yt-dlp" ;;
  match err with
  | Some e =>
      ret (EmptyString, EmptyString, [], Some ("yt-dlp is not installed: " ++ e))
  | None =>
  let ytdlpArgs : list string := [] in
  let ytdlpArgs :=
    if audioOnly then (ytdlpArgs ++ ["-x"; "--audio-format"; "mp3"])%list
    else ytdlpArgs in
  let ytdlpArgs := (ytdlpArgs ++ ["-f"; "18"; videoUrl])%list in
  ' (f, err) <- os_CreateTemp "" "gatonaranja.*.mp4" ;;
  match err with
  | Some e =>
      ret (EmptyString, EmptyString, [],
           Some ("unable to create temp file to save the downloaded video: " ++ e))
  | None =>
  let outputFilename := f in
  _ <- Close f ;;
  err <- os_Remove outputFilename ;;
  match err with
  | Some e =>
      ret (EmptyString, EmptyString, [],
           Some ("unable to remove temp file to save the downloaded video: " ++ e))
  | None =>
  let outputFilename :=
    if audioOnly then
      sliceTo outputFilename (String.length outputFilename - 1) ++ "3"
    else outputFilename in
  let ytdlpArgs := (ytdlpArgs ++ ["-o"; outputFilename])%list in
  ret (ytdlpPath, outputFilename, ytdlpArgs, None)
  end
  end
  end.

Definition DownloadVideo (videoUrl : string) (startSecond endSecond : Z)
    (audioOnly : bool) : M (string * error) :=
  ' (ytdlpPath, videoFilename, ytdlpArgs, err) <- BuildYtdlpCmd videoUrl audioOnly ;;
  match err with
  | Some e =>
      ret (EmptyString,
           Some ("unable to download video " ++ videoUrl ++ ": " ++ e))
  | None =>
  let downloadCmd := exec_Command ytdlpPath ytdlpArgs in
  err <- Run downloadCmd ;;
  match err with
  | Some e =>
      ret (EmptyString,
           Some ("unable to download video " ++ videoUrl ++ ": " ++ e))
  | None =>
  if negb (startSecond =? InvalidVideoSecond)
     && negb (endSecond =? InvalidVideoSecond) then
    ' (videoFilename, err) <- CutVideo videoFilename startSecond endSecond audioOnly ;;
    match err with
    | Some e =>
        ret (EmptyString,
             Some ("unable to download video " ++ videoUrl ++ ": " ++ e))
    | None => ret (videoFilename, None)
    end
  else ret (videoFilename, None)
  end
  end.

End Pipeline.

Arguments State : clear implicits.
Arguments M : clear implicits.

(** ** The allow-list and the startup check *)

(** The process environment is taken as given: [os_Getenv] is [os.Getenv],
    the empty string for a variable that is not set. *)
Class Environ : Type := {
  os_Getenv : string -> string
}.

(** Unicode's white space is taken as given: [unicodeTrim] is
    [strings.TrimFunc(s, unicode.IsSpace)] and [unicodeTrimRight] is
    [strings.TrimRightFunc(s, unicode.IsSpace)], which [strings.TrimSpace]
    falls back on when it meets a byte outside ASCII. *)
Class UnicodeSpace : Type := {
  unicodeTrim : string -> string;
  unicodeTrimRight : string -> string
}.

(** [strconv.Quote], which the text of a [strconv.NumError] puts around the
    string that did not parse, is taken as given. *)
Class StrconvQuote : Type := {
  strconv_Quote : string -> string
}.

(** The table [asciiSpace] of package [strings]: tab, line feed, vertical
    tab, form feed, carriage return and space. *)
Definition asciiSpace (c : ascii) : bool :=
  (code c =? 9) || (code c =? 10) || (code c =? 11) || (code c =? 12)
  || (code c =? 13) || (code c =? 32).

Section AllowList.

Context {env : Environ} {space : UnicodeSpace} {quote : StrconvQuote}.

(** The second loop of [strings.TrimSpace], on [s[start:]]: [back] is
    [s[start:stop]], last byte first. *)
Fixpoint trimRightLoop (back : list ascii) : string :=
  match back with
  | [] => EmptyString
  | c :: more =>
      if 128 <=? code c then unicodeTrimRight (string_of_list_ascii (rev back))
      else if asciiSpace c then trimRightLoop more
      else string_of_list_ascii (rev back)
  end.

(** [strings.TrimSpace]: the first loop skips the leading ASCII space, the
    second the trailing one. *)
Fixpoint TrimSpace (s : string) : string :=
  match s with
  | EmptyString => EmptyString
  | String c s' =>
      if 128 <=? code c then unicodeTrim s
      else if asciiSpace c then TrimSpace s'
      else trimRightLoop (rev (list_ascii_of_string s))
  end.

(** [strconv.ParseInt(s, 10, 0)]: what [Atoi] reads, the error being a
    [NumError] of the function [ParseInt]. *)
Definition ParseInt (s : string) : Z * error :=
  let '(i64, err) := Atoi s in
  match err with
  | Some cause =>
      (i64, Some ("strconv.ParseInt: parsing " ++ strconv_Quote s ++ ": " ++ cause))
  | None => (i64, None)
  end.

(** The loop of [LoadAuthorizedUserIds] over the pieces still to read,
    [ids] being the identifiers read so far. *)
Fixpoint rangeUserIds (pieces : list string) (ids : list Z) : list Z * error :=
  match pieces with
  | [] => (ids, None)
  | authorizedUserId :: rest =>
      let '(id, err) := ParseInt authorizedUserId in
      match err with
      | Some e =>
          ([], Some ("unable to parse " ++ authorizedUserId
                     ++ " into an int64: " ++ e))
      | None => rangeUserIds rest (ids ++ [id])%list
      end
  end.

Definition LoadAuthorizedUserIds (authorizedUsersEnv : string) : list Z * error :=
  let authorizedUsersEnvContent := TrimSpace (os_Getenv authorizedUsersEnv) in
  if String.eqb authorizedUsersEnvContent EmptyString then ([], None) else
  let authorizedUserIds := Split authorizedUsersEnvContent "," in
  rangeUserIds authorizedUserIds [].

End AllowList.

Section Startup.

Context {World : Type} {sys : System World}.

Definition CheckSystemHasRequiredDependencies : M World error :=
  let dependencies := ["ffmpeg"; "yt-dlp"] in
  (fix range (deps : list string) : M World error :=
     match deps with
     | [] => ret None
     | dep :: rest =>
         bind (exec_LookPath dep)
           (fun found =>
              match snd found with
              | Some e =>
                  ret (Some ("dependency " ++ dep
                             ++ " is not installed in the system: " ++ e))
              | None => range rest
              end)
     end) dependencies.

End Startup.

(** ** Vocabulary of the statements *)

(** A segment of a spot as the grammar has it: one or two decimal digits. *)
Definition segment (s : string) : bool :=
  match s with
  | String a EmptyString => isDigit a
  | String a (String b EmptyString) => isDigit a && isDigit b
  | _ => false
  end.

(** The number a decimal numeral denotes, read by the Standard Library. *)
Definition numeral (s : string) : Z :=
  match NilZero.uint_of_string s with
  | Some u => Z.of_uint u
  | None => 0
  end.

(** Do all the bytes of a string pass a test? *)
Fixpoint allBytes (P : ascii -> bool) (s : string) : bool :=
  match s with
  | EmptyString => true
  | String c s' => P c && allBytes P s'
  end.

(** Do all the literals of a pattern pass a test? *)
Fixpoint allLiterals (P : ascii -> bool) (r : regexp) : bool :=
  match r with
  | Literal c => P c
  | DigitClass => true
  | Concat r1 r2 => allLiterals P r1 && allLiterals P r2
  | Quest r1 => allLiterals P r1
  end.

(** A byte that [strings.ToLower] leaves as it is without a look at
    Unicode: an ASCII byte that is no capital letter. *)
Definition plainByte (c : ascii) : bool := (code c <? 128) && negb (isUpper c).

Definition digitBytes : list ascii :=
  ["0"; "1"; "2"; "3"; "4"; "5"; "6"; "7"; "8"; "9"]%char.

(** A machine for the examples: every tool is found under [/usr/bin], the
    temporary file gets the random part [42] under [/tmp], and every
    subprocess and file operation succeeds. *)
Module Machine.

#[local] Instance system : System unit := {
  sys_LookPath := fun file w => (("/usr/bin/" ++ file, None), w);
  sys_OpenTemp := fun dir prefix suffix w => (("/tmp/" ++ prefix ++ "42", None), w);
  sys_Close := fun name w => w;
  sys_Remove := fun name w => (None, w);
  sys_Run := fun c w => (None, w)
}.

(** A URL is kept as its text, and every text parses. *)
#[local] Instance net : NetURL := {
  URL := string;
  emptyURL := EmptyString;
  url_Parse := fun s => Some s
}.

#[local] Instance uni : Unicode := {
  unicodeToLower := fun s => s
}.

Definition start : State unit := {| world := tt; ran := [] |}.

Definition downloadCmd : Cmd :=
  exec_Command "/usr/bin/yt-dlp"
    ["-f"; "18"; "https://x/y"; "-o"; "/tmp/gatonaranja.42.mp4"].

Definition cutCmd : Cmd :=
  exec_Command "/usr/bin/ffmpeg"
    ["-ss"; "10"; "-i"; "/tmp/gatonaranja.42.mp4"; "-t"; "41";
     "/tmp/gatonaranja.42-cut.mp4"].

End Machine.

(** [strings.Join] for a separator of one byte, the inverse of [Split]. *)
Fixpoint Join (pieces : list string) (sep : ascii) : string :=
  match pieces with
  | [] => EmptyString
  | [p] => p
  | p :: rest => p ++ String sep (Join rest sep)
  end.

(** A byte of a word: an ASCII byte that is no white space. *)
Definition inkByte (c : ascii) : bool := (code c <? 128) && negb (asciiSpace c).

(** A byte of a decimal numeral: a digit or the minus sign. *)
Definition numberByte (c : ascii) : bool := isDigit c || Ascii.eqb c "-".

(** The text of a spot as the grammar has it: two or three segments
    between colons. *)
Definition spotText (a : string) : Prop :=
  (exists m s : string,
      segment m = true /\ segment s = true /\ a = m ++ ":" ++ s)
  \/ (exists h m s : string,
         segment h = true /\ segment m = true /\ segment s = true
         /\ a = h ++ ":" ++ m ++ ":" ++ s).

(** The largest second a spot can name: 59 seconds, 59 minutes and 11 of
    what the code takes for the hours. *)
Definition maxSecond : Z := 59 + 59 * 60 + 11 * 3600.

(** An environment, a quoting and a white space for the examples: the
    variable [AUTHORIZED_USERS] holds three identifiers between spaces,
    [SPACED] has a space after its comma and [TRAILING] ends in a comma. *)
Module Host.

#[local] Instance env : Environ := {
  os_Getenv := fun key =>
    if String.eqb key "AUTHORIZED_USERS" then "  12,-7,12345678901 "
    else if String.eqb key "SPACED" then "12, 7"
    else if String.eqb key "TRAILING" then "12,7,"
    else EmptyString
}.

#[local] Instance space : UnicodeSpace := {
  unicodeTrim := fun s => s;
  unicodeTrimRight := fun s => s
}.

#[local] Instance quote : StrconvQuote := {
  strconv_Quote := fun s =>
    String (ascii_of_nat 34) (s ++ String (ascii_of_nat 34) EmptyString)
}.

(** A machine where [yt-dlp] is missing, and one whose search path is
    read without a change of the world, [ffmpeg] being missing. *)
#[local] Instance offline : System unit := {
  sys_LookPath := fun file w =>
    if String.eqb file "yt-dlp" then ((EmptyString, Some "not found"), w)
    else (("/usr/bin/" ++ file, None), w);
  sys_OpenTemp := fun dir prefix suffix w => (("/tmp/" ++ prefix ++ "42", None), w);
  sys_Close := fun name w => w;
  sys_Remove := fun name w => (None, w);
  sys_Run := fun c w => (None, w)
}.

#[local] Instance bare : System unit := {
  sys_LookPath := fun file w =>
    if String.eqb file "ffmpeg" then ((EmptyString, Some "not found"), w)
    else (("/usr/bin/" ++ file, None), w);
  sys_OpenTemp := fun dir prefix suffix w => (("/tmp/" ++ prefix ++ "42", None), w);
  sys_Close := fun name w => w;
  sys_Remove := fun name w => (None, w);
  sys_Run := fun c w => (None, w)
}.

End Host.

(** * Properties *)

(** ** Strings *)

Lemma append_nil_r (s : string) : s ++ EmptyString = s.
Proof. induction s as [|c s IH]; simpl; [reflexivity | now rewrite IH]. Qed.

Lemma append_assoc (a b c : string) : (a ++ b) ++ c = a ++ (b ++ c).
Proof. induction a as [|x a IH]; simpl; [reflexivity | now rewrite IH]. Qed.

Lemma length_append (a b : string) :
  String.length (a ++ b) = (String.length a + String.length b)%nat.
Proof. induction a as [|x a IH]; simpl; [reflexivity | now rewrite IH]. Qed.

Lemma substring_prefix (a b : string) :
  substring 0 (String.length a) (a ++ b) = a.
Proof. induction a as [|x a IH]; simpl; [now destruct b | now rewrite IH]. Qed.

Lemma contains_append (c : ascii) (a b : string) :
  contains c (a ++ b) = contains c a || contains c b.
Proof.
  induction a as [|x a IH]; simpl; [reflexivity|].
  now rewrite IH, orb_assoc.
Qed.

(** ** [Split] *)

Lemma Split_not_nil (s : string) (sep : ascii) : Split s sep <> [].
Proof.
  destruct s as [|c s]; simpl; [discriminate|].
  destruct (Ascii.eqb c sep); [discriminate|].
  destruct (Split s sep); discriminate.
Qed.

Lemma Split_length_pos (s : string) (sep : ascii) :
  (1 <= List.length (Split s sep))%nat.
Proof.
  pose proof (Split_not_nil s sep) as H.
  destruct (Split s sep); [contradiction | simpl; lia].
Qed.

(** A string without the separator is its own single piece. *)
Lemma Split_without (s : string) (sep : ascii) :
  contains sep s = false -> Split s sep = [s].
Proof.
  induction s as [|c s IH]; simpl; [reflexivity|].
  intros H. apply orb_false_iff in H as [Hc Hs].
  now rewrite Hc, (IH Hs).
Qed.

(** The first separator ends the first piece. *)
Lemma Split_append (a b : string) (sep : ascii) :
  contains sep a = false ->
  Split (a ++ String sep b) sep = a :: Split b sep.
Proof.
  induction a as [|c a IH]; simpl.
  - intros _. now rewrite Ascii.eqb_refl.
  - intros H. apply orb_false_iff in H as [Hc Ha].
    now rewrite Hc, (IH Ha).
Qed.

(** A byte of a piece is a byte of the string. *)
Lemma Split_contains (c : ascii) (s : string) (sep : ascii) (p : string) :
  In p (Split s sep) -> contains c p = true -> contains c s = true.
Proof.
  revert p. induction s as [|x s IH]; simpl; intros p Hin Hp.
  - destruct Hin as [<- | []]. exact Hp.
  - destruct (Ascii.eqb x sep).
    + destruct Hin as [<- | Hin]; [discriminate|].
      rewrite (IH p Hin Hp). apply orb_true_r.
    + destruct (Split s sep) as [|q qs] eqn:E.
      * exfalso. exact (Split_not_nil s sep E).
      * destruct Hin as [<- | Hin].
        -- simpl in Hp. apply orb_true_iff in Hp as [Hx | Hq].
           ++ now rewrite Hx.
           ++ rewrite (IH q (or_introl eq_refl) Hq). apply orb_true_r.
        -- rewrite (IH p (or_intror Hin) Hp). apply orb_true_r.
Qed.

(** Reading a piece, in range or not, never yields a byte the string lacks. *)
Lemma index_Split_contains (c : ascii) (s : string) (sep : ascii) (i : nat) :
  contains c s = false -> contains c (index (Split s sep) i) = false.
Proof.
  intros H. unfold index.
  destruct (nth_in_or_default i (Split s sep) EmptyString) as [Hin | ->];
    [|reflexivity].
  destruct (contains c (nth i (Split s sep) EmptyString)) eqn:E; [|reflexivity].
  now rewrite (Split_contains c s sep _ Hin E) in H.
Qed.

(** No piece holds the separator. *)
Lemma Split_pieces (s : string) (sep : ascii) (p : string) :
  In p (Split s sep) -> contains sep p = false.
Proof.
  revert p. induction s as [|x s IH]; simpl; intros p Hin.
  - now destruct Hin as [<- | []].
  - destruct (Ascii.eqb x sep) eqn:Ex.
    + destruct Hin as [<- | Hin]; [reflexivity | now apply IH].
    + destruct (Split s sep) as [|q qs] eqn:E.
      * exfalso. exact (Split_not_nil s sep E).
      * destruct Hin as [<- | Hin].
        -- simpl. rewrite Ex. simpl. apply IH. now left.
        -- apply IH. now right.
Qed.

(** ** Go's [int] *)

Lemma wrap_inRange (z : Z) : GoInt.inRange z -> GoInt.wrap z = z.
Proof.
  unfold GoInt.inRange, GoInt.wrap, GoInt.minInt, GoInt.maxInt, GoInt.intSize.
  change (2 ^ (64 - 1)) with 9223372036854775808.
  change (2 ^ 64) with 18446744073709551616.
  intros H. rewrite Z.mod_small by lia. lia.
Qed.

Lemma sub_exact (a b : Z) : GoInt.inRange (a - b) -> GoInt.sub a b = a - b.
Proof. apply wrap_inRange. Qed.

Lemma small_inRange (z : Z) : 0 <= z <= 1000000 -> GoInt.inRange z.
Proof.
  unfold GoInt.inRange, GoInt.minInt, GoInt.maxInt, GoInt.intSize.
  change (2 ^ (64 - 1)) with 9223372036854775808. lia.
Qed.

(** The sum of a spot whose segments are in range never wraps. *)
Lemma spot_sum_two (seconds minutes : Z) :
  0 <= seconds <= 59 -> 0 <= minutes <= 59 ->
  GoInt.add seconds (GoInt.mul minutes 60) = seconds + minutes * 60.
Proof.
  intros Hs Hm. unfold GoInt.add, GoInt.mul.
  rewrite (wrap_inRange (minutes * 60)) by (apply small_inRange; lia).
  apply wrap_inRange, small_inRange. lia.
Qed.

Lemma spot_sum_three (second hours : Z) :
  0 <= second <= 3599 -> 0 <= hours <= 11 ->
  GoInt.add second (GoInt.mul (GoInt.mul hours 60) 60)
  = second + hours * 3600.
Proof.
  intros Hs Hh. unfold GoInt.add, GoInt.mul.
  rewrite (wrap_inRange (hours * 60)) by (apply small_inRange; lia).
  rewrite (wrap_inRange (hours * 60 * 60)) by (apply small_inRange; lia).
  rewrite wrap_inRange by (apply small_inRange; lia). lia.
Qed.

(** ** Digits and [Atoi] *)

Lemma isDigit_cases (c : ascii) : isDigit c = true -> In c digitBytes.
Proof.
  intros H.
  destruct c as [[] [] [] [] [] [] [] []]; vm_compute in H;
    try discriminate H; simpl; auto 12.
Qed.

Lemma isDigit_code (c : ascii) : isDigit c = true -> 48 <= code c <= 57.
Proof. unfold isDigit. intros H. apply andb_true_iff in H. lia. Qed.

Lemma isDigit_not (c d : ascii) :
  isDigit d = false -> isDigit c = true -> Ascii.eqb c d = false.
Proof.
  intros Hd Hc. destruct (Ascii.eqb_spec c d) as [-> | _]; [congruence | reflexivity].
Qed.

Lemma segment_cases (s : string) :
  segment s = true ->
  (exists a, s = String a EmptyString /\ isDigit a = true) \/
  (exists a b, s = String a (String b EmptyString)
               /\ isDigit a = true /\ isDigit b = true).
Proof.
  destruct s as [|a [|b [|c s]]]; simpl; intros H; try discriminate.
  - left. now exists a.
  - right. apply andb_true_iff in H. now exists a, b.
Qed.

Lemma segment_contains (c : ascii) (s : string) :
  isDigit c = false -> segment s = true -> contains c s = false.
Proof.
  intros Hc H. apply segment_cases in H as [(a & -> & Ha) | (a & b & -> & Ha & Hb)];
    simpl; rewrite ?(isDigit_not _ _ Hc Ha), ?(isDigit_not _ _ Hc Hb); reflexivity.
Qed.

(** On a segment [Atoi] reads the numeral. *)
Lemma Atoi_segment (s : string) :
  segment s = true -> Atoi s = (numeral s, None) /\ 0 <= numeral s <= 99.
Proof.
  intros H. apply segment_cases in H as [(a & -> & Ha) | (a & b & -> & Ha & Hb)].
  - apply isDigit_cases in Ha. simpl in Ha.
    repeat (destruct Ha as [<- | Ha]; [vm_compute; intuition congruence|]).
    contradiction.
  - apply isDigit_cases in Ha. apply isDigit_cases in Hb. simpl in Ha, Hb.
    repeat (destruct Ha as [<- | Ha];
            [repeat (destruct Hb as [<- | Hb]; [vm_compute; intuition congruence|]);
             contradiction|]).
    contradiction.
Qed.

Lemma digits_lower (s : string) (acc n : Z) :
  0 <= acc -> digits acc s = Some n -> 0 <= n.
Proof.
  revert acc. induction s as [|c s IH]; simpl; intros acc Hacc H.
  - congruence.
  - destruct (isDigit c) eqn:Ec; [|discriminate].
    apply isDigit_code in Ec.
    apply (IH (acc * 10 + (code c - 48))); [lia | exact H].
Qed.

(** Without a minus sign [Atoi] yields no negative number. *)
Lemma Atoi_unsigned (s : string) (v : Z) :
  contains "-" s = false -> Atoi s = (v, None) -> 0 <= v.
Proof.
  intros Hs. unfold Atoi.
  destruct s as [|c r]; [discriminate|].
  simpl in Hs. apply orb_false_iff in Hs as [Hc _]. rewrite Hc. simpl.
  match goal with |- context [match ?b with EmptyString => _ | String _ _ => _ end] =>
    destruct b as [|x body] eqn:Eb end; [discriminate|].
  destruct (digits 0 (String x body)) as [n|] eqn:En; [|discriminate].
  pose proof (digits_lower _ _ _ (Z.le_refl 0) En) as Hn.
  destruct (n <? GoInt.minInt); [discriminate|].
  destruct (GoInt.maxInt <? n); [discriminate|].
  congruence.
Qed.

(** ** The matcher against the patterns' meaning *)

Lemma run_sound (r : regexp) :
  forall (s : string) (k : string -> bool),
    run r s k = true ->
    exists s1 s2, s = s1 ++ s2 /\ Matches r s1 /\ k s2 = true.
Proof.
  induction r as [c | | r1 IH1 r2 IH2 | r IH]; simpl; intros s k H.
  - destruct s as [|c' s']; [discriminate|].
    apply andb_true_iff in H as [Hc Hk]. apply Ascii.eqb_eq in Hc as ->.
    exists (String c EmptyString), s'. repeat split; [constructor | exact Hk].
  - destruct s as [|c' s']; [discriminate|].
    apply andb_true_iff in H as [Hc Hk].
    exists (String c' EmptyString), s'. repeat split; [now constructor | exact Hk].
  - apply IH1 in H as (a & t & -> & Ha & H).
    apply IH2 in H as (b & u & -> & Hb & Hk).
    exists (a ++ b), u. rewrite append_assoc. repeat split; [now constructor | exact Hk].
  - apply orb_true_iff in H as [H | H].
    + apply IH in H as (a & t & -> & Ha & Hk).
      exists a, t. repeat split; [now apply MQuestTake | exact Hk].
    + exists EmptyString, s. repeat split; [apply MQuestSkip | exact H].
Qed.

Lemma run_complete (r : regexp) (s1 : string) :
  Matches r s1 ->
  forall (s2 : string) (k : string -> bool),
    k s2 = true -> run r (s1 ++ s2) k = true.
Proof.
  induction 1 as [c | c Hc | r1 r2 a b Ha IHa Hb IHb | r | r a Ha IHa];
    intros s2 k Hk; simpl.
  - now rewrite Ascii.eqb_refl.
  - now rewrite Hc.
  - rewrite append_assoc. apply IHa. now apply IHb.
  - rewrite Hk. apply orb_true_r.
  - rewrite (IHa _ _ Hk). reflexivity.
Qed.

Lemma matchWhole_spec (re : regexp) (s : string) :
  matchWhole re s = true <-> Matches re s.
Proof.
  unfold matchWhole. split.
  - intros H. apply run_sound in H as (a & b & -> & Ha & Hb).
    apply String.eqb_eq in Hb as ->. now rewrite append_nil_r.
  - intros H. rewrite <- (append_nil_r s). now apply run_complete.
Qed.

(** [MatchString] finds a match wherever it lies. *)
Lemma MatchString_spec (re : regexp) (s : string) :
  MatchString re s = true <->
  exists pre mid post, s = pre ++ mid ++ post /\ Matches re mid.
Proof.
  split.
  - induction s as [|c s IH]; simpl; intros H.
    + rewrite orb_false_r in H. apply run_sound in H as (a & b & E & Ha & _).
      now exists EmptyString, a, b.
    + apply orb_true_iff in H as [H | H].
      * apply run_sound in H as (a & b & E & Ha & _).
        now exists EmptyString, a, b.
      * apply IH in H as (pre & mid & post & -> & Hm).
        now exists (String c pre), mid, post.
  - intros (pre & mid & post & -> & Hm).
    induction pre as [|c pre IH]; simpl.
    + assert (Hp : matchPrefix re (mid ++ post) = true)
        by now apply run_complete.
      destruct (mid ++ post); simpl; now rewrite Hp.
    + rewrite IH. apply orb_true_r.
Qed.

Lemma MatchString_prefix (re : regexp) (s : string) :
  matchPrefix re s = true -> MatchString re s = true.
Proof. intros H. destruct s; simpl; now rewrite H. Qed.

(** The bytes of a match are digits and literals of the pattern. *)
Lemma allBytes_append (P : ascii -> bool) (a b : string) :
  allBytes P (a ++ b) = allBytes P a && allBytes P b.
Proof.
  induction a as [|c a IH]; simpl; [reflexivity|].
  now rewrite IH, andb_assoc.
Qed.

Lemma Matches_allBytes (P : ascii -> bool) (r : regexp) (s : string) :
  (forall c : ascii, isDigit c = true -> P c = true) ->
  Matches r s -> allLiterals P r = true -> allBytes P s = true.
Proof.
  intros HP. induction 1 as [c | c Hc | r1 r2 a b Ha IHa Hb IHb | r | r a Ha IHa];
    simpl; intros HL.
  - now rewrite HL.
  - now rewrite (HP c Hc).
  - apply andb_true_iff in HL as [H1 H2].
    now rewrite allBytes_append, IHa, IHb.
  - reflexivity.
  - now apply IHa.
Qed.

Lemma isDigit_plain (c : ascii) : isDigit c = true -> plainByte c = true.
Proof.
  intros H. apply isDigit_code in H. unfold plainByte, isUpper.
  apply andb_true_iff. split; [lia|].
  apply negb_true_iff, andb_false_iff. left. lia.
Qed.

(** ** The span parser *)

Lemma index_Split_pieces (s : string) (sep : ascii) (i : nat) :
  contains sep (index (Split s sep) i) = false.
Proof.
  unfold index.
  destruct (nth_in_or_default i (Split s sep) EmptyString) as [Hin | ->];
    [now apply Split_pieces in Hin | reflexivity].
Qed.

(** A spot without a minus sign resolves to no negative second. *)
Lemma Spot2Second_unsigned (spot : string) (v : Z) :
  contains "-" spot = false -> Spot2Second spot = (v, None) -> 0 <= v.
Proof.
  intros Hs. unfold Spot2Second.
  destruct (List.length (Split spot ":") <? 2)%nat; [discriminate|].
  destruct (Atoi (index (Split spot ":") 1)) as [seconds e1] eqn:E1.
  destruct e1; simpl; [discriminate|].
  destruct (59 <? seconds) eqn:B1; [discriminate|].
  destruct (Atoi (index (Split spot ":") 0)) as [minutes e0] eqn:E0.
  destruct e0; simpl; [discriminate|].
  destruct (59 <? minutes) eqn:B0; [discriminate|].
  apply Atoi_unsigned in E1; [|now apply index_Split_contains].
  apply Atoi_unsigned in E0; [|now apply index_Split_contains].
  apply Z.ltb_ge in B1, B0.
  rewrite spot_sum_two by lia.
  destruct (List.length (Split spot ":") =? 3)%nat.
  - destruct (Atoi (index (Split spot ":") 2)) as [hours e2] eqn:E2.
    destruct e2; simpl; [discriminate|].
    destruct (11 <? hours) eqn:B2; [discriminate|].
    apply Atoi_unsigned in E2; [|now apply index_Split_contains].
    apply Z.ltb_ge in B2.
    rewrite spot_sum_three by lia.
    intros [= <-]. lia.
  - intros [= <-]. lia.
Qed.

(** What [ParseStartEndSeconds] accepts is a span: it starts at no negative
    second and ends later. *)
Lemma ParseStartEndSeconds_span (span : string) (s e : Z) :
  ParseStartEndSeconds span = (s, e, None) -> 0 <= s /\ s < e.
Proof.
  unfold ParseStartEndSeconds.
  destruct (MatchString VideoStartEndPattern span); simpl; [|discriminate].
  destruct (List.length (Split span "-") =? 2)%nat; simpl; [|discriminate].
  destruct (Spot2Second (index (Split span "-") 0)) as [s0 e0] eqn:E0.
  destruct e0; simpl; [discriminate|].
  destruct (Spot2Second (index (Split span "-") 1)) as [s1 e1] eqn:E1.
  destruct e1; simpl; [discriminate|].
  destruct (s1 <=? s0) eqn:B; [discriminate|].
  intros [= <- <-]. apply Z.leb_gt in B.
  apply Spot2Second_unsigned in E0; [lia | apply index_Split_pieces].
Qed.

(** A spot of two segments: minutes, then seconds. *)
Lemma Spot2Second_two (m s : string) :
  segment m = true -> segment s = true ->
  numeral m <= 59 -> numeral s <= 59 ->
  Spot2Second (m ++ ":" ++ s) = (numeral m * 60 + numeral s, None).
Proof.
  intros Hm Hs Bm Bs.
  destruct (Atoi_segment m Hm) as [Am Rm], (Atoi_segment s Hs) as [As Rs].
  assert (HS : Split (m ++ ":" ++ s) ":" = [m; s]).
  { change (m ++ ":" ++ s) with (m ++ String ":" s).
    rewrite Split_append by now apply segment_contains.
    now rewrite Split_without by now apply segment_contains. }
  unfold Spot2Second. rewrite HS.
  change (index [m; s] 1) with s. change (index [m; s] 0) with m.
  rewrite As, Am. simpl.
  rewrite (proj2 (Z.ltb_ge 59 (numeral s))) by lia.
  rewrite (proj2 (Z.ltb_ge 59 (numeral m))) by lia.
  rewrite spot_sum_two by lia. f_equal. lia.
Qed.

(** A spot of three segments, as the code reads it: the first segment is
    taken for the minutes, the second for the seconds and the third for the
    hours. *)
Lemma Spot2Second_three (a b c : string) :
  segment a = true -> segment b = true -> segment c = true ->
  numeral a <= 59 -> numeral b <= 59 ->
  Spot2Second (a ++ ":" ++ b ++ ":" ++ c)
  = if 11 <? numeral c
    then (0, Some ("unable to parse spot " ++ a ++ ":" ++ b ++ ":" ++ c))
    else (numeral b + numeral a * 60 + numeral c * 3600, None).
Proof.
  intros Ha Hb Hc Ba Bb.
  destruct (Atoi_segment a Ha) as [Aa Ra], (Atoi_segment b Hb) as [Ab Rb],
    (Atoi_segment c Hc) as [Ac Rc].
  assert (HS : Split (a ++ ":" ++ b ++ ":" ++ c) ":" = [a; b; c]).
  { change (a ++ ":" ++ b ++ ":" ++ c) with (a ++ String ":" (b ++ String ":" c)).
    rewrite Split_append by now apply segment_contains.
    rewrite Split_append by now apply segment_contains.
    now rewrite Split_without by now apply segment_contains. }
  unfold Spot2Second. rewrite HS.
  change (index [a; b; c] 1) with b. change (index [a; b; c] 0) with a.
  change (index [a; b; c] 2) with c.
  rewrite Ab, Aa, Ac. simpl.
  rewrite (proj2 (Z.ltb_ge 59 (numeral b))) by lia.
  rewrite (proj2 (Z.ltb_ge 59 (numeral a))) by lia.
  destruct (11 <? numeral c) eqn:B; [reflexivity|].
  apply Z.ltb_ge in B.
  rewrite (spot_sum_two (numeral b) (numeral a)) by lia.
  rewrite spot_sum_three by lia. reflexivity.
Qed.

Lemma Matches_segment (d : string) :
  segment d = true -> Matches (Repeat12 DigitClass) d.
Proof.
  intros H. apply segment_cases in H as [(a & -> & Ha) | (a & b & -> & Ha & Hb)].
  - apply (MConcat _ _ (String a EmptyString) EmptyString);
      [now constructor | apply MQuestSkip].
  - apply (MConcat _ _ (String a EmptyString) (String b EmptyString));
      [now constructor | apply MQuestTake; now constructor].
Qed.

Lemma Matches_spot_two (m s : string) :
  segment m = true -> segment s = true -> Matches spotPattern (m ++ ":" ++ s).
Proof.
  intros Hm Hs.
  apply (MConcat _ _ EmptyString (m ++ ":" ++ s)); [apply MQuestSkip|].
  apply MConcat; [now apply Matches_segment|].
  apply (MConcat _ _ ":" s); [constructor | now apply Matches_segment].
Qed.

Lemma Matches_spot_three (h m s : string) :
  segment h = true -> segment m = true -> segment s = true ->
  Matches spotPattern (h ++ ":" ++ m ++ ":" ++ s).
Proof.
  intros Hh Hm Hs.
  replace (h ++ ":" ++ m ++ ":" ++ s) with ((h ++ ":") ++ m ++ ":" ++ s)
    by now rewrite append_assoc.
  apply MConcat.
  - apply MQuestTake. apply MConcat; [now apply Matches_segment | constructor].
  - apply MConcat; [now apply Matches_segment|].
    apply (MConcat _ _ ":" s); [constructor | now apply Matches_segment].
Qed.

Lemma MatchString_spots (a b : string) :
  Matches spotPattern a -> Matches spotPattern b ->
  MatchString VideoStartEndPattern (a ++ "-" ++ b) = true.
Proof.
  intros Ha Hb. apply MatchString_spec. exists EmptyString, (a ++ "-" ++ b), EmptyString.
  split; [simpl; now rewrite append_nil_r|].
  apply MConcat; [exact Ha|].
  apply (MConcat _ _ "-" b); [constructor | exact Hb].
Qed.

Lemma Split_span (a b : string) :
  contains "-" a = false -> contains "-" b = false ->
  Split (a ++ "-" ++ b) "-" = [a; b].
Proof.
  intros Ha Hb. change (a ++ "-" ++ b) with (a ++ String "-" b).
  now rewrite Split_append, Split_without.
Qed.

Lemma spot_two_unsigned (m s : string) :
  segment m = true -> segment s = true -> contains "-" (m ++ ":" ++ s) = false.
Proof.
  intros Hm Hs. rewrite contains_append, (segment_contains "-" m) by easy.
  simpl. now apply segment_contains.
Qed.

(** C5. A span of two spots [M:S], each segment of one or two digits and at
    most 59, whose start lies before its end, is accepted, and each side
    resolves to [M*60+S] seconds. *)
Theorem ParseStartEndSeconds_minutes_seconds (m1 s1 m2 s2 : string) :
  segment m1 = true -> segment s1 = true ->
  segment m2 = true -> segment s2 = true ->
  numeral m1 <= 59 -> numeral s1 <= 59 ->
  numeral m2 <= 59 -> numeral s2 <= 59 ->
  numeral m1 * 60 + numeral s1 < numeral m2 * 60 + numeral s2 ->
  ParseStartEndSeconds (m1 ++ ":" ++ s1 ++ "-" ++ m2 ++ ":" ++ s2)
  = (numeral m1 * 60 + numeral s1, numeral m2 * 60 + numeral s2, None).
Proof.
  intros Hm1 Hs1 Hm2 Hs2 Bm1 Bs1 Bm2 Bs2 Lt.
  replace (m1 ++ ":" ++ s1 ++ "-" ++ m2 ++ ":" ++ s2)
    with ((m1 ++ ":" ++ s1) ++ "-" ++ (m2 ++ ":" ++ s2))
    by (rewrite append_assoc; reflexivity).
  unfold ParseStartEndSeconds.
  rewrite MatchString_spots by now apply Matches_spot_two.
  rewrite Split_span by now apply spot_two_unsigned.
  change (index [m1 ++ ":" ++ s1; m2 ++ ":" ++ s2] 0) with (m1 ++ ":" ++ s1).
  change (index [m1 ++ ":" ++ s1; m2 ++ ":" ++ s2] 1) with (m2 ++ ":" ++ s2).
  rewrite !Spot2Second_two by assumption. simpl.
  now rewrite (proj2 (Z.leb_gt _ _) Lt).
Qed.

Lemma ParseStartEndSeconds_minutes_seconds_witness :
  ParseStartEndSeconds "1:05-1:10" = (65, 70, None)
  /\ ParseStartEndSeconds "00:00-59:59" = (0, 3599, None).
Proof.
  split.
  - apply (ParseStartEndSeconds_minutes_seconds "1" "05" "1" "10");
      vm_compute; congruence.
  - apply (ParseStartEndSeconds_minutes_seconds "00" "00" "59" "59");
      vm_compute; congruence.
Defined.

(** C6. When both spots of a span resolve and the start is not before the
    end, the span is rejected; so are [1:10-1:05], whose start is after its
    end, and [1:10-1:10], whose start is its end. *)
Theorem ParseStartEndSeconds_start_before_end :
  (forall (span a b : string) (s e : Z),
      Split span "-" = [a; b] ->
      Spot2Second a = (s, None) ->
      Spot2Second b = (e, None) ->
      e <= s ->
      exists reason : string, ParseStartEndSeconds span = (0, 0, Some reason))
  /\ ParseStartEndSeconds "1:10-1:05"
     = (0, 0, Some "start spot is after or at the same that the end spot")
  /\ ParseStartEndSeconds "1:10-1:10"
     = (0, 0, Some "start spot is after or at the same that the end spot").
Proof.
  split; [|split; reflexivity].
  intros span a b s e HS Ha Hb Le. unfold ParseStartEndSeconds.
  destruct (MatchString VideoStartEndPattern span); simpl; [|eauto].
  rewrite HS. change (index [a; b] 0) with a. change (index [a; b] 1) with b.
  rewrite Ha, Hb. simpl.
  rewrite (proj2 (Z.leb_le e s) Le). eauto.
Qed.

Lemma ParseStartEndSeconds_start_before_end_witness :
  (exists reason : string, ParseStartEndSeconds "1:10-1:05" = (0, 0, Some reason))
  /\ (exists reason : string, ParseStartEndSeconds "1:10-1:10" = (0, 0, Some reason)).
Proof.
  destruct ParseStartEndSeconds_start_before_end as [H _].
  split.
  - apply (H "1:10-1:05" "1:10" "1:05" 70 65);
      [reflexivity | reflexivity | reflexivity | lia].
  - apply (H "1:10-1:10" "1:10" "1:10" 70 70);
      [reflexivity | reflexivity | reflexivity | lia].
Defined.

(** C1. On a spot of three segments the code takes the first segment for
    the minutes, the second for the seconds and the third for the hours:
    the span [3:17:55-4:17:59] of the source's own comment, a span of the
    grammar, is rejected,
    [1:02:03] resolves to [2 + 1*60 + 3*3600] seconds and not to
    [3 + 2*60 + 1*3600], and twelve hours and more are accepted. *)
Theorem ParseStartEndSeconds_hours_segment :
  (Matches VideoStartEndPattern "3:17:55-4:17:59"
   /\ ParseStartEndSeconds "3:17:55-4:17:59"
      = (0, 0, Some "unable to parse spot 3:17:55"))
  /\ ParseStartEndSeconds "1:02:03-1:02:04" = (10862, 14462, None)
  /\ ParseStartEndSeconds "12:00:00-13:00:00" = (720, 780, None).
Proof.
  split; [split|split]; try (vm_compute; reflexivity).
  apply matchWhole_spec. vm_compute. reflexivity.
Qed.

(** C3. The pattern is searched for anywhere in the span and the pieces are
    read by [Atoi]: spans that are not of the grammar's shape are accepted,
    with a segment of three digits, with a sign, or with segments that are
    not numbers after the third colon. *)
Theorem ParseStartEndSeconds_outside_grammar :
  (ParseStartEndSeconds "001:05-1:10" = (65, 70, None)
   /\ ~ Matches VideoStartEndPattern "001:05-1:10")
  /\ (ParseStartEndSeconds "+1:05-1:10" = (65, 70, None)
      /\ ~ Matches VideoStartEndPattern "+1:05-1:10")
  /\ (ParseStartEndSeconds "1:05-1:10:zz:ww" = (65, 70, None)
      /\ ~ Matches VideoStartEndPattern "1:05-1:10:zz:ww").
Proof.
  repeat split; try (vm_compute; reflexivity);
    intros H; apply matchWhole_spec in H; vm_compute in H; discriminate H.
Qed.

(** ** The command parser *)

Section CommandProperties.

Context {net : NetURL} {uni : Unicode}.

(** Lowering leaves a string of plain bytes as it is; so it does a span of
    the grammar. *)
Lemma ToLower_plain (t : string) : allBytes plainByte t = true -> ToLower t = t.
Proof.
  intros H. unfold ToLower.
  assert (HA : isASCII t = true /\ mapBytes lowerByte t = t).
  { induction t as [|c t IH]; simpl in *; [easy|].
    apply andb_true_iff in H as [Hc Ht]. destruct (IH Ht) as [IH1 IH2].
    unfold plainByte in Hc. apply andb_true_iff in Hc as [Hc1 Hc2].
    apply negb_true_iff in Hc2. split; [now rewrite Hc1, IH1|].
    rewrite IH2. unfold lowerByte. now rewrite Hc2. }
  destruct HA as [-> ->]. reflexivity.
Qed.

Lemma ToLower_span (t : string) :
  Matches VideoStartEndPattern t -> ToLower t = t.
Proof.
  intros H. apply ToLower_plain.
  now apply (Matches_allBytes plainByte VideoStartEndPattern t isDigit_plain H).
Qed.

(** The word [audio] is no span. *)
Lemma audio_not_span (t : string) (s e : Z) :
  ParseStartEndSeconds t = (s, e, None) -> String.eqb t "audio" = false.
Proof.
  intros H. destruct (String.eqb_spec t "audio") as [-> | _]; [|reflexivity].
  vm_compute in H. discriminate H.
Qed.

(** Whatever follows it, a second token that lowers to [audio] makes the
    command an audio request. *)
Lemma LoadDownloadConfigFromMsg_audio (msg : string) (videoUrl : URL) :
  url_Parse (index (Split msg " ") 0) = Some videoUrl ->
  (2 <= List.length (Split msg " "))%nat ->
  ToLower (index (Split msg " ") 1) = "audio" ->
  LoadDownloadConfigFromMsg msg
  = (videoUrl, InvalidVideoSecond, InvalidVideoSecond, true, None).
Proof.
  intros Hu Hlen Ha. unfold LoadDownloadConfigFromMsg. rewrite Hu.
  destruct (Nat.eqb_spec (List.length (Split msg " ")) 1) as [E | _]; [lia|].
  now rewrite Ha.
Qed.

(** C2. A second token [audio] ends the parsing at once: the command is
    accepted with three tokens, and with more than three. *)
Theorem LoadDownloadConfigFromMsg_audio_then_more :
  LoadDownloadConfigFromMsg "https://x/y audio extra"
  = match url_Parse "https://x/y" with
    | Some videoUrl => (videoUrl, -1, -1, true, None)
    | None => (emptyURL, -1, -1, false,
               Some "unable to parse the 1st argument (video URL)")
    end
  /\ LoadDownloadConfigFromMsg "https://x/y AUDIO a b c"
     = match url_Parse "https://x/y" with
       | Some videoUrl => (videoUrl, -1, -1, true, None)
       | None => (emptyURL, -1, -1, false,
                  Some "unable to parse the 1st argument (video URL)")
       end.
Proof.
  split; unfold LoadDownloadConfigFromMsg;
    match goal with |- context [url_Parse ?a] =>
      change (url_Parse a) with (url_Parse "https://x/y") end;
    destruct (url_Parse "https://x/y"); reflexivity.
Qed.

(** C7. An error comes with the empty request; an accepted request has
    either no span, both seconds being [-1], or a span that starts at no
    negative second and ends later. *)
Theorem LoadDownloadConfigFromMsg_request (msg : string) :
  let '(videoUrl, startSecond, endSecond, audioOnly, err) := LoadDownloadConfigFromMsg msg in
  match err with
  | Some _ =>
      videoUrl = emptyURL /\ startSecond = -1 /\ endSecond = -1
      /\ audioOnly = false
  | None =>
      (startSecond = -1 /\ endSecond = -1)
      \/ (0 <= startSecond /\ 0 <= endSecond /\ startSecond < endSecond)
  end.
Proof.
  unfold LoadDownloadConfigFromMsg, InvalidVideoSecond.
  destruct (url_Parse (index (Split msg " ") 0)) as [videoUrl|]; [|easy].
  destruct (List.length (Split msg " ") =? 1)%nat; [now left|].
  destruct (String.eqb (ToLower (index (Split msg " ") 1)) "audio"); [now left|].
  destruct (ParseStartEndSeconds (ToLower (index (Split msg " ") 1)))
    as [[s e] err] eqn:E.
  destruct err as [reason|]; simpl; [easy|].
  apply ParseStartEndSeconds_span in E.
  destruct (List.length (Split msg " ") =? 2)%nat; [right; lia|].
  destruct (3 <? List.length (Split msg " "))%nat; [easy|].
  destruct (String.eqb (index (Split msg " ") 2) "audio"); simpl;
    [right; lia | easy].
Qed.

(** C8. After a URL and a span, a third token is accepted when it is
    [audio] byte for byte, and the command is an audio request then; any
    other third token is an error.  The span is what [ParseStartEndSeconds]
    accepts of the lowered second token, which for a span of the grammar is
    the token itself.  As the second token the word [audio] is compared
    after lowering, so that [AUDIO] does there and not as the third. *)
Theorem LoadDownloadConfigFromMsg_audio_word :
  (forall (msg u t1 t2 : string) (videoUrl : URL) (s e : Z),
      Split msg " " = [u; t1; t2] ->
      url_Parse u = Some videoUrl ->
      ParseStartEndSeconds (ToLower t1) = (s, e, None) ->
      LoadDownloadConfigFromMsg msg
      = if String.eqb t2 "audio" then (videoUrl, s, e, true, None)
        else (emptyURL, -1, -1, false,
              Some "unable to parse the 3rd argument: this argument can only be the audio word"))
  /\ (forall (msg u t1 t2 : string) (videoUrl : URL) (s e : Z),
         Split msg " " = [u; t1; t2] ->
         url_Parse u = Some videoUrl ->
         Matches VideoStartEndPattern t1 ->
         ParseStartEndSeconds t1 = (s, e, None) ->
         LoadDownloadConfigFromMsg msg
         = if String.eqb t2 "audio" then (videoUrl, s, e, true, None)
           else (emptyURL, -1, -1, false,
                 Some "unable to parse the 3rd argument: this argument can only be the audio word"))
  /\ (forall (msg u t : string) (videoUrl : URL),
         Split msg " " = [u; t] ->
         url_Parse u = Some videoUrl ->
         ToLower t = "audio" ->
         LoadDownloadConfigFromMsg msg = (videoUrl, -1, -1, true, None))
  /\ ToLower "AUDIO" = "audio"
  /\ String.eqb "AUDIO" "audio" = false.
Proof.
  assert (H3 : forall (msg u t1 t2 : string) (videoUrl : URL) (s e : Z),
             Split msg " " = [u; t1; t2] ->
             url_Parse u = Some videoUrl ->
             ParseStartEndSeconds (ToLower t1) = (s, e, None) ->
             LoadDownloadConfigFromMsg msg
             = if String.eqb t2 "audio" then (videoUrl, s, e, true, None)
               else (emptyURL, -1, -1, false,
                     Some "unable to parse the 3rd argument: this argument can only be the audio word")).
  { intros msg u t1 t2 videoUrl s e HS Hu Hp.
    unfold LoadDownloadConfigFromMsg. rewrite HS.
    change (index [u; t1; t2] 0) with u. change (index [u; t1; t2] 1) with t1.
    change (index [u; t1; t2] 2) with t2.
    rewrite Hu, (audio_not_span _ _ _ Hp), Hp. simpl.
    now destruct (String.eqb t2 "audio"). }
  split; [exact H3 | split; [|split; [|split; reflexivity]]].
  - intros msg u t1 t2 videoUrl s e HS Hu Hm Hp.
    apply (H3 msg u t1 t2 videoUrl s e HS Hu).
    now rewrite (ToLower_span t1 Hm).
  - intros msg u t videoUrl HS Hu Ha.
    apply LoadDownloadConfigFromMsg_audio; rewrite HS; [exact Hu | simpl; lia | exact Ha].
Qed.

End CommandProperties.

Lemma LoadDownloadConfigFromMsg_audio_word_witness :
  let parse :=
    LoadDownloadConfigFromMsg (net := Machine.net) (uni := Machine.uni) in
  parse "https://x/y 0:10-0:51 audio" = ("https://x/y", 10, 51, true, None)
  /\ parse "https://x/y 0:10-0:51 AUDIO"
     = (EmptyString, -1, -1, false,
        Some "unable to parse the 3rd argument: this argument can only be the audio word")
  /\ parse "https://x/y AUDIO" = ("https://x/y", -1, -1, true, None).
Proof.
  pose proof (LoadDownloadConfigFromMsg_audio_word
                (net := Machine.net) (uni := Machine.uni)) as (H3 & _ & H2 & _).
  intros parse. split; [|split].
  - exact (H3 "https://x/y 0:10-0:51 audio" "https://x/y" "0:10-0:51" "audio"
             "https://x/y" 10 51 eq_refl eq_refl eq_refl).
  - exact (H3 "https://x/y 0:10-0:51 AUDIO" "https://x/y" "0:10-0:51" "AUDIO"
             "https://x/y" 10 51 eq_refl eq_refl eq_refl).
  - exact (H2 "https://x/y AUDIO" "https://x/y" "AUDIO" "https://x/y"
             eq_refl eq_refl eq_refl).
Defined.

(** ** The access policy *)

(** C10. With an empty allow-list everyone is authorized; otherwise exactly
    the members of the list are.  The function is total. *)
Theorem UserIsAuthorized_policy (userId : Z) :
  UserIsAuthorized userId [] = true
  /\ forall (allowedUserId : Z) (rest : list Z),
       UserIsAuthorized userId (allowedUserId :: rest) = true
       <-> In userId (allowedUserId :: rest).
Proof.
  split; [reflexivity|].
  assert (H : forall ids : list Z,
             (fix range (ids : list Z) : bool :=
                match ids with
                | [] => false
                | allowedUserId :: rest =>
                    if userId =? allowedUserId then true else range rest
                end) ids = true <-> In userId ids).
  { induction ids as [|x l IH]; simpl.
    - split; [discriminate | contradiction].
    - destruct (Z.eqb_spec userId x) as [-> | Hne].
      + split; auto.
      + rewrite IH. split; [auto | intros [E | H]; [congruence | exact H]]. }
  intros a l. exact (H (a :: l)).
Qed.

(** ** The planner and the orchestrator *)

Lemma gatonaranja_pattern :
  prefixAndSuffix "gatonaranja.*.mp4" = ("gatonaranja.", ".mp4", None).
Proof. reflexivity. Qed.

(** Replacing the last byte of a name in [.mp4] by [3]. *)
Lemma mp4_to_mp3 (stem : string) :
  sliceTo (stem ++ ".mp4") (String.length (stem ++ ".mp4") - 1) ++ "3"
  = stem ++ ".mp3".
Proof.
  unfold sliceTo.
  replace (String.length (stem ++ ".mp4") - 1)%nat
    with (String.length (stem ++ ".mp")) by (rewrite !length_append; simpl; lia).
  change (stem ++ ".mp4") with (stem ++ ".mp" ++ "4").
  rewrite <- append_assoc, substring_prefix, append_assoc. reflexivity.
Qed.

Section PipelineProperties.

Context {World : Type} {sys : System World}.

(** What a successful plan is made of, and that planning runs no command. *)
Lemma BuildYtdlpCmd_inv (videoUrl : string) (audioOnly : bool) (st st' : State World)
    (ytdlpPath outputFilename : string) (ytdlpArgs : list string) :
  BuildYtdlpCmd videoUrl audioOnly st = ((ytdlpPath, outputFilename, ytdlpArgs, None), st') ->
  ran st' = ran st
  /\ ytdlpArgs
     = ((if audioOnly then ["-x"; "--audio-format"; "mp3"] else [])
        ++ ["-f"; "18"; videoUrl; "-o"; outputFilename])%list
  /\ exists stem : string,
       outputFilename = stem ++ (if audioOnly then ".mp3" else ".mp4").
Proof.
  unfold BuildYtdlpCmd, os_CreateTemp, exec_LookPath, Close, os_Remove,
    liftSys, bind, ret.
  rewrite gatonaranja_pattern. unfold bind, liftSys, ret.
  destruct (sys_LookPath "yt-dlp" (world st)) as [[p e0] w0].
  destruct e0; [discriminate|]. cbn [world ran].
  destruct (sys_OpenTemp "" "gatonaranja." ".mp4" w0) as [[stem e1] w1].
  destruct e1; [discriminate|]. cbn [world ran].
  destruct (sys_Remove (stem ++ ".mp4") (sys_Close (stem ++ ".mp4") w1)) as [e2 w2].
  destruct e2; [discriminate|].
  intros [= <- <- <- <-]. cbn [ran]. split; [reflexivity|].
  destruct audioOnly.
  - rewrite mp4_to_mp3. split; [reflexivity | now exists stem].
  - split; [reflexivity | now exists stem].
Qed.

(** A failed plan has run no command either. *)
Lemma BuildYtdlpCmd_ran (videoUrl : string) (audioOnly : bool) (st : State World) :
  ran (snd (BuildYtdlpCmd videoUrl audioOnly st)) = ran st.
Proof.
  unfold BuildYtdlpCmd, os_CreateTemp, exec_LookPath, Close, os_Remove,
    liftSys, bind, ret.
  rewrite gatonaranja_pattern. unfold bind, liftSys, ret.
  destruct (sys_LookPath "yt-dlp" (world st)) as [[p e0] w0].
  destruct e0; [reflexivity|]. cbn [world ran].
  destruct (sys_OpenTemp "" "gatonaranja." ".mp4" w0) as [[stem e1] w1].
  destruct e1; [reflexivity|]. cbn [world ran].
  destruct (sys_Remove (stem ++ ".mp4") (sys_Close (stem ++ ".mp4") w1)) as [e2 w2].
  destruct e2; reflexivity.
Qed.

Lemma Run_ran (c : Cmd) (st : State World) :
  ran (snd (Run c st)) = (ran st ++ [c])%list.
Proof. unfold Run. now destruct (sys_Run c (world st)). Qed.

(** C9. A successful plan lists the audio flags [-x --audio-format mp3]
    when the request is audio only, then [-f 18], the URL, [-o] and the
    output path; the path ends in [.mp3] for an audio request and in [.mp4]
    otherwise. *)
Theorem BuildYtdlpCmd_arguments (videoUrl : string) (audioOnly : bool)
    (st st' : State World) (ytdlpPath outputFilename : string)
    (ytdlpArgs : list string) :
  BuildYtdlpCmd videoUrl audioOnly st = ((ytdlpPath, outputFilename, ytdlpArgs, None), st') ->
  ytdlpArgs
  = ((if audioOnly then ["-x"; "--audio-format"; "mp3"] else [])
     ++ ["-f"; "18"; videoUrl; "-o"; outputFilename])%list
  /\ exists stem : string,
       outputFilename = stem ++ (if audioOnly then ".mp3" else ".mp4").
Proof. intros H. now apply BuildYtdlpCmd_inv in H. Qed.

Lemma DownloadVideo_after_download (videoUrl : string) (audioOnly : bool)
    (st st1 st2 : State World) (ytdlpPath file : string)
    (ytdlpArgs : list string) (startSecond endSecond : Z) :
  BuildYtdlpCmd videoUrl audioOnly st = ((ytdlpPath, file, ytdlpArgs, None), st1) ->
  Run (exec_Command ytdlpPath ytdlpArgs) st1 = (None, st2) ->
  DownloadVideo videoUrl startSecond endSecond audioOnly st
  = if negb (startSecond =? InvalidVideoSecond)
       && negb (endSecond =? InvalidVideoSecond)
    then
      let '((out, err), st3) := CutVideo file startSecond endSecond audioOnly st2 in
      (match err with
       | Some e =>
           (EmptyString,
            Some ("unable to download video " ++ videoUrl ++ ": " ++ e))
       | None => (out, None)
       end, st3)
    else ((file, None), st2).
Proof.
  intros Hplan Hrun. unfold DownloadVideo, bind at 1.
  rewrite Hplan. cbv beta iota zeta. unfold bind at 1. rewrite Hrun.
  cbv beta iota zeta.
  destruct (negb (startSecond =? InvalidVideoSecond)
            && negb (endSecond =? InvalidVideoSecond)); [|reflexivity].
  unfold bind.
  destruct (CutVideo file startSecond endSecond audioOnly st2) as [[out err] st3].
  now destruct err.
Qed.

Lemma CutVideo_ran (videoFilename : string) (startSecond endSecond : Z)
    (audioOnly : bool) (st : State World) (ffmpegPath : string) (w : World) :
  sys_LookPath "ffmpeg" (world st) = ((ffmpegPath, None), w) ->
  exists final : string,
    ran (snd (CutVideo videoFilename startSecond endSecond audioOnly st))
    = (ran st
       ++ [exec_Command ffmpegPath
             ["-ss"; Sprint startSecond; "-i"; videoFilename; "-t";
              Sprint (GoInt.sub endSecond startSecond); final]])%list.
Proof.
  intros Hlook. eexists.
  unfold CutVideo, exec_LookPath, liftSys, bind at 1. rewrite Hlook.
  cbv beta iota zeta. unfold bind, Run. cbn [world ran].
  match goal with |- context [sys_Run ?c w] => destruct (sys_Run c w) as [e w'] end.
  destruct e; reflexivity.
Qed.

(** C4. Once the download has succeeded, a request with a span goes on as
    [CutVideo] on the downloaded file with the span's seconds, and the
    command the cutter runs has that file after [-i] and, after [-t], the end
    second minus the start second (Go's subtraction on [int], the plain
    difference when that fits an [int]); a request without a span returns
    the downloaded file's path as it is.  Without a span no command but the
    downloader's is ever run, whether the request succeeds or not. *)
Theorem DownloadVideo_orchestration :
  (forall (videoUrl : string) (audioOnly : bool) (st st1 st2 : State World)
          (ytdlpPath file : string) (ytdlpArgs : list string),
      BuildYtdlpCmd videoUrl audioOnly st = ((ytdlpPath, file, ytdlpArgs, None), st1) ->
      Run (exec_Command ytdlpPath ytdlpArgs) st1 = (None, st2) ->
      (forall startSecond endSecond : Z,
          startSecond <> -1 -> endSecond <> -1 ->
          DownloadVideo videoUrl startSecond endSecond audioOnly st
          = (let '((out, err), st3) :=
               CutVideo file startSecond endSecond audioOnly st2 in
             (match err with
              | Some e =>
                  (EmptyString,
                   Some ("unable to download video " ++ videoUrl ++ ": " ++ e))
              | None => (out, None)
              end, st3))
          /\ forall (ffmpegPath : string) (w : World),
               sys_LookPath "ffmpeg" (world st2) = ((ffmpegPath, None), w) ->
               exists (final : string) (duration : Z),
                 ran (snd (DownloadVideo videoUrl startSecond endSecond audioOnly st))
                 = (ran st
                    ++ [exec_Command ytdlpPath ytdlpArgs;
                        exec_Command ffmpegPath
                          ["-ss"; Sprint startSecond; "-i"; file; "-t";
                           Sprint duration; final]])%list
                 /\ duration = GoInt.sub endSecond startSecond
                 /\ (GoInt.inRange (endSecond - startSecond) ->
                     duration = endSecond - startSecond))
      /\ DownloadVideo videoUrl (-1) (-1) audioOnly st = ((file, None), st2)
      /\ ran st2 = (ran st ++ [exec_Command ytdlpPath ytdlpArgs])%list)
  /\ (forall (videoUrl : string) (audioOnly : bool) (st : State World),
         let final := snd (DownloadVideo videoUrl (-1) (-1) audioOnly st) in
         let '((ytdlpPath, _, ytdlpArgs, _), _) := BuildYtdlpCmd videoUrl audioOnly st in
         ran final = ran st
         \/ ran final = (ran st ++ [exec_Command ytdlpPath ytdlpArgs])%list).
Proof.
  split.
  - intros videoUrl audioOnly st st1 st2 ytdlpPath file ytdlpArgs Hplan Hrun.
    assert (Hran : ran st2 = (ran st ++ [exec_Command ytdlpPath ytdlpArgs])%list).
    { pose proof (Run_ran (exec_Command ytdlpPath ytdlpArgs) st1) as H.
      rewrite Hrun in H. simpl in H. rewrite H.
      now destruct (BuildYtdlpCmd_inv _ _ _ _ _ _ _ Hplan) as [-> _]. }
    split; [|split; [|exact Hran]].
    + intros startSecond endSecond Hs He.
      rewrite (DownloadVideo_after_download _ _ _ _ _ _ _ _ _ _ Hplan Hrun).
      unfold InvalidVideoSecond.
      rewrite (proj2 (Z.eqb_neq startSecond (-1)) Hs).
      rewrite (proj2 (Z.eqb_neq endSecond (-1)) He).
      cbn [negb andb]. split; [reflexivity|].
      intros ffmpegPath w Hlook.
      destruct (CutVideo_ran file startSecond endSecond audioOnly st2 _ _ Hlook)
        as [final Hfinal].
      exists final, (GoInt.sub endSecond startSecond).
      split; [|split; [reflexivity | intros Hin; now apply sub_exact]].
      destruct (CutVideo file startSecond endSecond audioOnly st2) as [[out err] st3].
      simpl in Hfinal |- *. rewrite Hfinal, Hran, <- app_assoc. reflexivity.
    + now rewrite (DownloadVideo_after_download _ _ _ _ _ _ _ _ _ _ Hplan Hrun).
  - intros videoUrl audioOnly st final.
    pose proof (BuildYtdlpCmd_ran videoUrl audioOnly st) as Hplan.
    subst final.
    remember (DownloadVideo videoUrl (-1) (-1) audioOnly st) as result eqn:Er.
    unfold DownloadVideo in Er. unfold bind at 1 in Er.
    destruct (BuildYtdlpCmd videoUrl audioOnly st) as [[[[ytdlpPath file] ytdlpArgs] err] st1].
    simpl in Hplan. destruct err as [e|]; [left; subst result; exact Hplan|].
    unfold bind at 1 in Er.
    pose proof (Run_ran (exec_Command ytdlpPath ytdlpArgs) st1) as Hrun.
    destruct (Run (exec_Command ytdlpPath ytdlpArgs) st1) as [err st2].
    simpl in Hrun. rewrite Hplan in Hrun.
    destruct err; right; subst result; exact Hrun.
Qed.

End PipelineProperties.

Lemma BuildYtdlpCmd_arguments_witness :
  (["-x"; "--audio-format"; "mp3"; "-f"; "18"; "https://x/y"; "-o";
    "/tmp/gatonaranja.42.mp3"]
   = (["-x"; "--audio-format"; "mp3"]
      ++ ["-f"; "18"; "https://x/y"; "-o"; "/tmp/gatonaranja.42.mp3"])%list
   /\ exists stem : string, "/tmp/gatonaranja.42.mp3" = stem ++ ".mp3")
  /\ (["-f"; "18"; "https://x/y"; "-o"; "/tmp/gatonaranja.42.mp4"]
      = ([] ++ ["-f"; "18"; "https://x/y"; "-o"; "/tmp/gatonaranja.42.mp4"])%list
      /\ exists stem : string, "/tmp/gatonaranja.42.mp4" = stem ++ ".mp4").
Proof.
  split.
  - exact (BuildYtdlpCmd_arguments (sys := Machine.system) "https://x/y" true
             Machine.start Machine.start "/usr/bin/yt-dlp"
             "/tmp/gatonaranja.42.mp3"
             ["-x"; "--audio-format"; "mp3"; "-f"; "18"; "https://x/y"; "-o";
              "/tmp/gatonaranja.42.mp3"] eq_refl).
  - exact (BuildYtdlpCmd_arguments (sys := Machine.system) "https://x/y" false
             Machine.start Machine.start "/usr/bin/yt-dlp"
             "/tmp/gatonaranja.42.mp4"
             ["-f"; "18"; "https://x/y"; "-o"; "/tmp/gatonaranja.42.mp4"]
             eq_refl).
Defined.

Lemma DownloadVideo_orchestration_witness :
  let download := DownloadVideo (sys := Machine.system) in
  download "https://x/y" 10 51 false Machine.start
  = (("/tmp/gatonaranja.42-cut.mp4", None),
     {| world := tt; ran := [Machine.downloadCmd; Machine.cutCmd] |})
  /\ download "https://x/y" (-1) (-1) false Machine.start
     = (("/tmp/gatonaranja.42.mp4", None),
        {| world := tt; ran := [Machine.downloadCmd] |}).
Proof.
  intros download.
  destruct (DownloadVideo_orchestration (sys := Machine.system)) as [H _].
  destruct (H "https://x/y" false Machine.start Machine.start
              {| world := tt; ran := [Machine.downloadCmd] |}
              "/usr/bin/yt-dlp" "/tmp/gatonaranja.42.mp4"
              ["-f"; "18"; "https://x/y"; "-o"; "/tmp/gatonaranja.42.mp4"]
              eq_refl eq_refl) as (Hcut & Hplain & _).
  split.
  - assert (H10 : 10 <> -1) by lia. assert (H51 : 51 <> -1) by lia.
    exact (proj1 (Hcut 10 51 H10 H51)).
  - exact Hplain.
Defined.

(** ** The commands of the specification's examples, on the example machine *)

Example command_url_only :
  LoadDownloadConfigFromMsg (net := Machine.net) (uni := Machine.uni)
    "https://x/y"
  = ("https://x/y", -1, -1, false, None).
Proof. reflexivity. Qed.

Example command_audio :
  LoadDownloadConfigFromMsg (net := Machine.net) (uni := Machine.uni)
    "https://x/y audio"
  = ("https://x/y", -1, -1, true, None).
Proof. reflexivity. Qed.

Example command_span :
  LoadDownloadConfigFromMsg (net := Machine.net) (uni := Machine.uni)
    "https://x/y 0:10-0:51"
  = ("https://x/y", 10, 51, false, None).
Proof. reflexivity. Qed.

Example command_span_audio :
  LoadDownloadConfigFromMsg (net := Machine.net) (uni := Machine.uni)
    "https://x/y 0:10-0:51 audio"
  = ("https://x/y", 10, 51, true, None).
Proof. reflexivity. Qed.

Example command_foo_bar_baz :
  LoadDownloadConfigFromMsg (net := Machine.net) (uni := Machine.uni)
    "https://x/y foo bar baz"
  = (EmptyString, -1, -1, false,
     Some "unable to parse the 2nd argument (video spots to make the cut or audio word)").
Proof. reflexivity. Qed.

Example command_span_four_tokens :
  LoadDownloadConfigFromMsg (net := Machine.net) (uni := Machine.uni)
    "https://x/y 0:10-0:51 audio more"
  = (EmptyString, -1, -1, false, Some "more than 3 arguments were used").
Proof. reflexivity. Qed.

(** * Further properties *)

(** ** The span parser *)

Lemma Split_length_append (a b : string) (sep : ascii) :
  List.length (Split (a ++ String sep b) sep)
  = (List.length (Split a sep) + List.length (Split b sep))%nat.
Proof.
  induction a as [|c a IH]; simpl.
  - now rewrite Ascii.eqb_refl.
  - destruct (Ascii.eqb c sep); simpl; [now rewrite IH|].
    pose proof (Split_not_nil (a ++ String sep b) sep) as N1.
    pose proof (Split_not_nil a sep) as N2.
    destruct (Split (a ++ String sep b) sep); [contradiction|].
    destruct (Split a sep); [contradiction|]. exact IH.
Qed.

Lemma Spot2Second_range (spot : string) (v : Z) :
  contains "-" spot = false -> Spot2Second spot = (v, None) ->
  0 <= v <= maxSecond.
Proof.
  intros Hs. unfold Spot2Second, maxSecond.
  destruct (List.length (Split spot ":") <? 2)%nat; [discriminate|].
  destruct (Atoi (index (Split spot ":") 1)) as [seconds e1] eqn:E1.
  destruct e1; simpl; [discriminate|].
  destruct (59 <? seconds) eqn:B1; [discriminate|].
  destruct (Atoi (index (Split spot ":") 0)) as [minutes e0] eqn:E0.
  destruct e0; simpl; [discriminate|].
  destruct (59 <? minutes) eqn:B0; [discriminate|].
  apply Atoi_unsigned in E1; [|now apply index_Split_contains].
  apply Atoi_unsigned in E0; [|now apply index_Split_contains].
  apply Z.ltb_ge in B1, B0.
  rewrite spot_sum_two by lia.
  destruct (List.length (Split spot ":") =? 3)%nat.
  - destruct (Atoi (index (Split spot ":") 2)) as [hours e2] eqn:E2.
    destruct e2; simpl; [discriminate|].
    destruct (11 <? hours) eqn:B2; [discriminate|].
    apply Atoi_unsigned in E2; [|now apply index_Split_contains].
    apply Z.ltb_ge in B2.
    rewrite spot_sum_three by lia.
    intros [= <-]. lia.
  - intros [= <-]. lia.
Qed.

(** What an accepted span is made of. *)
Lemma ParseStartEndSeconds_inv (span : string) (s e : Z) :
  ParseStartEndSeconds span = (s, e, None) ->
  MatchString VideoStartEndPattern span = true
  /\ exists a b : string,
       Split span "-" = [a; b]
       /\ Spot2Second a = (s, None) /\ Spot2Second b = (e, None) /\ s < e.
Proof.
  unfold ParseStartEndSeconds.
  destruct (MatchString VideoStartEndPattern span); simpl; [|discriminate].
  destruct (Split span "-") as [|a [|b [|c l]]] eqn:HS; simpl; try discriminate.
  change (index [a; b] 0) with a. change (index [a; b] 1) with b.
  destruct (Spot2Second a) as [s0 e0] eqn:Ea. destruct e0; simpl; [discriminate|].
  destruct (Spot2Second b) as [s1 e1] eqn:Eb. destruct e1; simpl; [discriminate|].
  destruct (s1 <=? s0) eqn:B; [discriminate|].
  intros [= <- <-]. apply Z.leb_gt in B.
  split; [reflexivity|]. exists a, b. auto.
Qed.

(** One piece is the string itself; two pieces, put together again. *)
Lemma Split_one (s b : string) (sep : ascii) : Split s sep = [b] -> s = b.
Proof.
  revert b. induction s as [|c s IH]; simpl; intros b HS.
  - now injection HS.
  - destruct (Ascii.eqb c sep).
    + injection HS as _ HS. now apply Split_not_nil in HS.
    + destruct (Split s sep) as [|q qs] eqn:E; [now apply Split_not_nil in E|].
      injection HS as <- ->. f_equal. now apply IH.
Qed.

Lemma Split_two (s a b : string) (sep : ascii) :
  Split s sep = [a; b] -> s = a ++ String sep b.
Proof.
  revert a b. induction s as [|c s IH]; simpl; intros a b HS; [discriminate|].
  destruct (Ascii.eqb_spec c sep) as [-> | Hc].
  - injection HS as <- HS. simpl. f_equal. now apply Split_one in HS.
  - destruct (Split s sep) as [|q qs] eqn:E; [discriminate|].
    injection HS as <- ->. simpl. f_equal. now apply IH.
Qed.

Lemma ParseStartEndSeconds_range (span : string) (s e : Z) :
  ParseStartEndSeconds span = (s, e, None) ->
  0 <= s /\ s < e /\ e <= maxSecond.
Proof.
  intros H. apply ParseStartEndSeconds_inv in H as (_ & a & b & HS & Ha & Hb & Lt).
  assert (Hin : forall p, In p [a; b] -> contains "-" p = false).
  { intros p Hp. rewrite <- HS in Hp. now apply Split_pieces in Hp. }
  apply Spot2Second_range in Ha; [|apply Hin; now left].
  apply Spot2Second_range in Hb; [|apply Hin; right; now left].
  lia.
Qed.

(** X1. The seconds of an accepted span lie between 0 and 43199, that is
    59 + 59*60 + 11*3600, and the start is strictly before the end. *)
Theorem ParseStartEndSeconds_bounds (span : string) (s e : Z) :
  ParseStartEndSeconds span = (s, e, None) ->
  0 <= s /\ s < e /\ e <= 43199.
Proof. intros H. now apply ParseStartEndSeconds_range in H. Qed.

Lemma ParseStartEndSeconds_bounds_witness :
  0 <= 65 /\ 65 < 70 /\ 70 <= 43199.
Proof.
  exact (ParseStartEndSeconds_bounds "1:05-1:10" 65 70 eq_refl).
Defined.

(** X2. An accepted span holds exactly one dash, its two sides are the
    spots that resolve to the seconds returned, and somewhere in it lies a
    text of the pattern's shape. *)
Theorem ParseStartEndSeconds_accepted (span : string) (s e : Z) :
  ParseStartEndSeconds span = (s, e, None) ->
  (exists a b : string,
      span = a ++ "-" ++ b
      /\ contains "-" a = false /\ contains "-" b = false
      /\ Spot2Second a = (s, None) /\ Spot2Second b = (e, None))
  /\ exists pre mid post : string,
       span = pre ++ mid ++ post /\ Matches VideoStartEndPattern mid.
Proof.
  intros H. apply ParseStartEndSeconds_inv in H as (HM & a & b & HS & Ha & Hb & _).
  split; [|now apply MatchString_spec].
  exists a, b.
  assert (Hin : forall p, In p [a; b] -> contains "-" p = false).
  { intros p Hp. rewrite <- HS in Hp. now apply Split_pieces in Hp. }
  split; [now apply Split_two|].
  split; [apply Hin; now left|].
  split; [apply Hin; right; now left|].
  now split.
Qed.

Lemma ParseStartEndSeconds_accepted_witness :
  (exists a b : string,
      "001:05-1:10" = a ++ "-" ++ b
      /\ contains "-" a = false /\ contains "-" b = false
      /\ Spot2Second a = (65, None) /\ Spot2Second b = (70, None))
  /\ exists pre mid post : string,
       "001:05-1:10" = pre ++ mid ++ post /\ Matches VideoStartEndPattern mid.
Proof.
  exact (ParseStartEndSeconds_accepted "001:05-1:10" 65 70 eq_refl).
Defined.

Lemma Split_length_contains (t : string) (sep : ascii) :
  contains sep t = true -> (2 <= List.length (Split t sep))%nat.
Proof.
  induction t as [|c t IH]; simpl; [discriminate|].
  destruct (Ascii.eqb c sep); simpl; intros H.
  - pose proof (Split_length_pos t sep). lia.
  - specialize (IH H). destruct (Split t sep); simpl in *; lia.
Qed.

(** X3. Only a spot of exactly three pieces has its third piece read: with
    four pieces or more, whatever follows the second colon is ignored and
    the spot resolves from its first two pieces. *)
Theorem Spot2Second_ignores_tail (m s t : string) :
  segment m = true -> segment s = true ->
  numeral m <= 59 -> numeral s <= 59 ->
  contains ":" t = true ->
  Spot2Second (m ++ ":" ++ s ++ ":" ++ t) = (numeral m * 60 + numeral s, None).
Proof.
  intros Hm Hs Bm Bs Ht.
  destruct (Atoi_segment m Hm) as [Am Rm], (Atoi_segment s Hs) as [As Rs].
  assert (HS : Split (m ++ ":" ++ s ++ ":" ++ t) ":" = m :: s :: Split t ":").
  { change (m ++ ":" ++ s ++ ":" ++ t) with (m ++ String ":" (s ++ String ":" t)).
    rewrite Split_append by now apply segment_contains.
    now rewrite Split_append by now apply segment_contains. }
  apply Split_length_contains in Ht.
  unfold Spot2Second. rewrite HS.
  destruct (Split t ":") as [|p [|q l]]; simpl in Ht; try lia.
  change (index (m :: s :: p :: q :: l) 1) with s.
  change (index (m :: s :: p :: q :: l) 0) with m.
  rewrite As, Am. simpl.
  rewrite (proj2 (Z.ltb_ge 59 (numeral s))) by lia.
  rewrite (proj2 (Z.ltb_ge 59 (numeral m))) by lia.
  rewrite spot_sum_two by lia. f_equal. lia.
Qed.

Lemma Spot2Second_ignores_tail_witness :
  Spot2Second "1:10:zz:ww" = (70, None).
Proof.
  apply (Spot2Second_ignores_tail "1" "10" "zz:ww");
    vm_compute; congruence.
Defined.

(** X4. A spot of two segments resolves exactly when both are at most 59;
    with 60 or more in either it is an error that names the spot. *)
Theorem Spot2Second_two_segments (m s : string) :
  segment m = true -> segment s = true ->
  Spot2Second (m ++ ":" ++ s)
  = if (numeral s <=? 59) && (numeral m <=? 59)
    then (numeral m * 60 + numeral s, None)
    else (0, Some ("unable to parse spot " ++ m ++ ":" ++ s)).
Proof.
  intros Hm Hs.
  destruct (Atoi_segment m Hm) as [Am Rm], (Atoi_segment s Hs) as [As Rs].
  assert (HS : Split (m ++ ":" ++ s) ":" = [m; s]).
  { change (m ++ ":" ++ s) with (m ++ String ":" s).
    rewrite Split_append by now apply segment_contains.
    now rewrite Split_without by now apply segment_contains. }
  unfold Spot2Second. rewrite HS.
  change (index [m; s] 1) with s. change (index [m; s] 0) with m.
  rewrite As, Am. simpl.
  destruct (Z.leb_spec (numeral s) 59) as [Bs | Bs].
  - rewrite (proj2 (Z.ltb_ge 59 (numeral s))) by lia.
    destruct (Z.leb_spec (numeral m) 59) as [Bm | Bm]; simpl.
    + rewrite (proj2 (Z.ltb_ge 59 (numeral m))) by lia.
      rewrite spot_sum_two by lia. f_equal. lia.
    + now rewrite (proj2 (Z.ltb_lt 59 (numeral m))) by lia.
  - now rewrite (proj2 (Z.ltb_lt 59 (numeral s))) by lia.
Qed.

Lemma Spot2Second_two_segments_witness :
  Spot2Second "59:59" = (3599, None)
  /\ Spot2Second "1:60" = (0, Some "unable to parse spot 1:60")
  /\ Spot2Second "60:00" = (0, Some "unable to parse spot 60:00").
Proof.
  split; [|split].
  - exact (Spot2Second_two_segments "59" "59" eq_refl eq_refl).
  - exact (Spot2Second_two_segments "1" "60" eq_refl eq_refl).
  - exact (Spot2Second_two_segments "60" "00" eq_refl eq_refl).
Defined.

(** X5. A span with two dashes or more is rejected, whatever lies between
    them: the spots cannot carry a sign. *)
Theorem ParseStartEndSeconds_two_dashes (a b c : string) :
  ParseStartEndSeconds (a ++ "-" ++ b ++ "-" ++ c)
  = (0, 0, Some ("unable to parse video span " ++ a ++ "-" ++ b ++ "-" ++ c)).
Proof.
  unfold ParseStartEndSeconds.
  destruct (MatchString VideoStartEndPattern (a ++ "-" ++ b ++ "-" ++ c));
    simpl; [|reflexivity].
  rewrite !Split_length_append.
  pose proof (Split_length_pos a "-"). pose proof (Split_length_pos b "-").
  pose proof (Split_length_pos c "-").
  destruct (Nat.eqb_spec
              (List.length (Split a "-")
               + (List.length (Split b "-") + List.length (Split c "-"))) 2);
    [lia | reflexivity].
Qed.

(** ** The command parser *)

Section CommandFurther.

Context {net : NetURL} {uni : Unicode}.

(** X6. What an accepted command tells about the line: the URL is the parse
    of the first token; there is no span exactly when the line is one token
    or its second token lowers to [audio]; and the request is audio only
    exactly when the second token lowers to [audio] or the line has three
    tokens, the third being [audio]. *)
Theorem LoadDownloadConfigFromMsg_accepted (msg : string) (videoUrl : URL)
    (startSecond endSecond : Z) (audioOnly : bool) :
  LoadDownloadConfigFromMsg msg
  = (videoUrl, startSecond, endSecond, audioOnly, None) ->
  url_Parse (index (Split msg " ") 0) = Some videoUrl
  /\ (startSecond = -1 <->
      List.length (Split msg " ") = 1%nat
      \/ ToLower (index (Split msg " ") 1) = "audio")
  /\ (audioOnly = true <->
      (List.length (Split msg " ") <> 1%nat
       /\ ToLower (index (Split msg " ") 1) = "audio")
      \/ (List.length (Split msg " ") = 3%nat
          /\ index (Split msg " ") 2 = "audio")).
Proof.
  unfold LoadDownloadConfigFromMsg, InvalidVideoSecond.
  destruct (url_Parse (index (Split msg " ") 0)) as [u|]; [|discriminate].
  destruct (Nat.eqb_spec (List.length (Split msg " ")) 1) as [L1 | L1].
  { intros [= <- <- <- <-]. split; [reflexivity|]. split.
    - split; auto.
    - split; [discriminate|]. intros [[N _] | [N _]]; lia. }
  destruct (String.eqb_spec (ToLower (index (Split msg " ") 1)) "audio")
    as [A | A].
  { intros [= <- <- <- <-]. split; [reflexivity|]. split.
    - split; auto.
    - split; auto. }
  destruct (ParseStartEndSeconds (ToLower (index (Split msg " ") 1)))
    as [[s e] err] eqn:E.
  destruct err; simpl; [discriminate|].
  apply ParseStartEndSeconds_span in E.
  destruct (Nat.eqb_spec (List.length (Split msg " ")) 2) as [L2 | L2].
  { intros [= <- <- <- <-]. split; [reflexivity|]. split.
    - split; [lia | intros [N | N]; [lia | contradiction]].
    - split; [discriminate|]. intros [[_ N] | [N _]]; [contradiction | lia]. }
  destruct (Nat.ltb_spec 3 (List.length (Split msg " "))) as [L3 | L3];
    [discriminate|].
  destruct (String.eqb_spec (index (Split msg " ") 2) "audio") as [T | T];
    simpl; [|discriminate].
  intros [= <- <- <- <-]. split; [reflexivity|]. split.
  - split; [lia | intros [N | N]; [lia | contradiction]].
  - split; [|reflexivity]. intros _. right.
    pose proof (Split_length_pos msg " "). split; [lia | exact T].
Qed.

(** X7. After a URL and a span the number of tokens decides: two tokens
    give the span without audio, three go by the third token, and four or
    more are an error. *)
Theorem LoadDownloadConfigFromMsg_span_tokens (msg u t1 : string)
    (rest : list string) (videoUrl : URL) (s e : Z) :
  Split msg " " = u :: t1 :: rest ->
  url_Parse u = Some videoUrl ->
  ParseStartEndSeconds (ToLower t1) = (s, e, None) ->
  LoadDownloadConfigFromMsg msg
  = match rest with
    | [] => (videoUrl, s, e, false, None)
    | [t2] =>
        if String.eqb t2 "audio" then (videoUrl, s, e, true, None)
        else (emptyURL, -1, -1, false,
              Some "unable to parse the 3rd argument: this argument can only be the audio word")
    | _ => (emptyURL, -1, -1, false, Some "more than 3 arguments were used")
    end.
Proof.
  intros HS Hu Hp. unfold LoadDownloadConfigFromMsg. rewrite HS.
  change (index (u :: t1 :: rest) 0) with u.
  change (index (u :: t1 :: rest) 1) with t1.
  rewrite Hu, (audio_not_span _ _ _ Hp), Hp.
  destruct rest as [|t2 [|t3 rest]]; simpl; try reflexivity.
  change (index [u; t1; t2] 2) with t2.
  now destruct (String.eqb t2 "audio").
Qed.

(** X8. A space right after the URL's, at the end of the line or before
    another space, makes an empty second token, which is neither [audio]
    nor a span: the command is an error. *)
Theorem LoadDownloadConfigFromMsg_empty_token (u tail : string)
    (videoUrl : URL) :
  contains " " u = false ->
  url_Parse u = Some videoUrl ->
  LoadDownloadConfigFromMsg (u ++ " ")
  = (emptyURL, -1, -1, false,
     Some "unable to parse the 2nd argument (video spots to make the cut or audio word)")
  /\ LoadDownloadConfigFromMsg (u ++ "  " ++ tail)
     = (emptyURL, -1, -1, false,
        Some "unable to parse the 2nd argument (video spots to make the cut or audio word)").
Proof.
  intros Hc Hu. split; unfold LoadDownloadConfigFromMsg.
  - change (u ++ " ") with (u ++ String " " EmptyString).
    rewrite Split_append by exact Hc. simpl Split.
    change (index [u; EmptyString] 0) with u. rewrite Hu. reflexivity.
  - change (u ++ "  " ++ tail) with (u ++ String " " (String " " tail)).
    rewrite Split_append by exact Hc. simpl Split.
    change (index (u :: EmptyString :: Split tail " ") 0) with u. rewrite Hu.
    change (index (u :: EmptyString :: Split tail " ") 1) with EmptyString.
    pose proof (Split_length_pos tail " ").
    destruct (Nat.eqb_spec
                (List.length (u :: EmptyString :: Split tail " ")) 1)
      as [L | L]; [simpl in L; lia | reflexivity].
Qed.

End CommandFurther.

Lemma LoadDownloadConfigFromMsg_accepted_witness :
  url_Parse (NetURL := Machine.net) "https://x/y" = Some "https://x/y"
  /\ (10 = -1 <->
      3%nat = 1%nat
      \/ ToLower (uni := Machine.uni) "0:10-0:51" = "audio")
  /\ (true = true <->
      (3%nat <> 1%nat /\ ToLower (uni := Machine.uni) "0:10-0:51" = "audio")
      \/ (3%nat = 3%nat /\ "audio" = "audio")).
Proof.
  exact (LoadDownloadConfigFromMsg_accepted (net := Machine.net)
           (uni := Machine.uni) "https://x/y 0:10-0:51 audio"
           "https://x/y" 10 51 true eq_refl).
Defined.

Lemma LoadDownloadConfigFromMsg_span_tokens_witness :
  let parse :=
    LoadDownloadConfigFromMsg (net := Machine.net) (uni := Machine.uni) in
  parse "https://x/y 0:10-0:51" = ("https://x/y", 10, 51, false, None)
  /\ parse "https://x/y 0:10-0:51 audio now"
     = (EmptyString, -1, -1, false, Some "more than 3 arguments were used").
Proof.
  intros parse. split.
  - exact (LoadDownloadConfigFromMsg_span_tokens (net := Machine.net)
             (uni := Machine.uni) "https://x/y 0:10-0:51" "https://x/y"
             "0:10-0:51" [] "https://x/y" 10 51 eq_refl eq_refl eq_refl).
  - exact (LoadDownloadConfigFromMsg_span_tokens (net := Machine.net)
             (uni := Machine.uni) "https://x/y 0:10-0:51 audio now"
             "https://x/y" "0:10-0:51" ["audio"; "now"] "https://x/y" 10 51
             eq_refl eq_refl eq_refl).
Defined.

Lemma LoadDownloadConfigFromMsg_empty_token_witness :
  let parse :=
    LoadDownloadConfigFromMsg (net := Machine.net) (uni := Machine.uni) in
  parse "https://x/y "
  = (EmptyString, -1, -1, false,
     Some "unable to parse the 2nd argument (video spots to make the cut or audio word)")
  /\ parse "https://x/y  audio"
     = (EmptyString, -1, -1, false,
        Some "unable to parse the 2nd argument (video spots to make the cut or audio word)").
Proof.
  exact (LoadDownloadConfigFromMsg_empty_token (net := Machine.net)
           (uni := Machine.uni) "https://x/y" "audio" "https://x/y"
           eq_refl eq_refl).
Defined.

(** ** Decimal numerals: [fmt.Sprint] and [strconv.Atoi] *)

Lemma digits_step (c : ascii) (s : string) (acc : Z) :
  isDigit c = true ->
  digits acc (String c s) = digits (acc * 10 + (code c - 48)) s.
Proof. intros H. simpl. now rewrite H. Qed.

Lemma uint_digits (d : Decimal.uint) :
  allBytes isDigit (NilEmpty.string_of_uint d) = true.
Proof. induction d; simpl; [reflexivity | rewrite IHd; reflexivity ..]. Qed.

Lemma digits_uint_acc (d : Decimal.uint) :
  forall acc : positive,
    digits (Z.pos acc) (NilEmpty.string_of_uint d)
    = Some (Z.pos (Pos.of_uint_acc d acc)).
Proof.
  induction d; intros acc; [reflexivity | ..];
    cbn [NilEmpty.string_of_uint Pos.of_uint_acc];
    rewrite digits_step by reflexivity; rewrite <- IHd; f_equal;
    match goal with |- context [code ?c - 48] =>
      let v := eval vm_compute in (code c - 48) in
      change (code c - 48) with v end; lia.
Qed.

Lemma digits_uint (d : Decimal.uint) :
  digits 0 (NilEmpty.string_of_uint d) = Some (Z.of_N (Pos.of_uint d)).
Proof.
  induction d; [reflexivity | ..];
    cbn [NilEmpty.string_of_uint Pos.of_uint];
    rewrite digits_step by reflexivity;
    match goal with |- context [code ?c - 48] =>
      let v := eval vm_compute in (code c - 48) in
      change (0 * 10 + (code c - 48)) with v end;
    [exact IHd | apply digits_uint_acc ..].
Qed.

Lemma string_of_pos (p : positive) :
  NilZero.string_of_uint (Pos.to_uint p) = NilEmpty.string_of_uint (Pos.to_uint p).
Proof.
  pose proof (Unsigned.to_uint_nonnil p) as H.
  now destruct (Pos.to_uint p).
Qed.

Lemma digits_pos (p : positive) :
  digits 0 (NilEmpty.string_of_uint (Pos.to_uint p)) = Some (Z.pos p).
Proof. now rewrite digits_uint, DecimalPos.Unsigned.of_to. Qed.

Lemma uint_not_empty (d : Decimal.uint) :
  d <> Decimal.Nil -> NilEmpty.string_of_uint d <> EmptyString.
Proof. destruct d; simpl; congruence. Qed.

(** [Atoi] on a run of digits, with or without a minus sign before it. *)
Lemma Atoi_unsigned_digits (t : string) (n : Z) :
  t <> EmptyString -> allBytes isDigit t = true -> digits 0 t = Some n ->
  GoInt.inRange n -> Atoi t = (n, None).
Proof.
  intros Ht Hd Hn [Lo Hi]. destruct t as [|c r]; [contradiction|].
  simpl in Hd. apply andb_true_iff in Hd as [Hc _].
  unfold Atoi. rewrite (isDigit_not c "-"), (isDigit_not c "+") by easy.
  cbn [orb]. rewrite Hn.
  rewrite (proj2 (Z.ltb_ge n GoInt.minInt)) by lia.
  now rewrite (proj2 (Z.ltb_ge GoInt.maxInt n)) by lia.
Qed.

Lemma Atoi_minus_digits (t : string) (n : Z) :
  t <> EmptyString -> digits 0 t = Some n ->
  GoInt.inRange (- n) -> Atoi (String "-" t) = (- n, None).
Proof.
  intros Ht Hn [Lo Hi]. unfold Atoi. cbn [Ascii.eqb Bool.eqb orb andb].
  change (Ascii.eqb "-" "-") with true. cbn [orb].
  destruct t as [|c r]; [contradiction|]. rewrite Hn.
  rewrite (proj2 (Z.ltb_ge (- n) GoInt.minInt)) by lia.
  now rewrite (proj2 (Z.ltb_ge GoInt.maxInt (- n))) by lia.
Qed.

(** What [Sprint] prints, [Atoi] reads. *)
Lemma Atoi_Sprint (n : Z) : GoInt.inRange n -> Atoi (Sprint n) = (n, None).
Proof.
  intros H. destruct n as [|p|p]; unfold Sprint; cbn [Z.to_int NilZero.string_of_int].
  - reflexivity.
  - rewrite string_of_pos. apply Atoi_unsigned_digits; auto using uint_digits, digits_pos.
    apply uint_not_empty, Unsigned.to_uint_nonnil.
  - rewrite string_of_pos.
    apply (Atoi_minus_digits _ (Z.pos p)); auto using digits_pos.
    apply uint_not_empty, Unsigned.to_uint_nonnil.
Qed.

Lemma allBytes_weaken (P Q : ascii -> bool) (s : string) :
  (forall c, P c = true -> Q c = true) ->
  allBytes P s = true -> allBytes Q s = true.
Proof.
  intros H. induction s as [|c s IH]; simpl; [reflexivity|].
  intros E. apply andb_true_iff in E as [E1 E2]. now rewrite (H c E1), IH.
Qed.

Lemma allBytes_contains (P : ascii -> bool) (c : ascii) (s : string) :
  P c = false -> allBytes P s = true -> contains c s = false.
Proof.
  intros Hc. induction s as [|x s IH]; simpl; [reflexivity|].
  intros E. apply andb_true_iff in E as [E1 E2]. rewrite (IH E2), orb_false_r.
  destruct (Ascii.eqb_spec x c) as [-> | _]; [congruence | reflexivity].
Qed.

(** [Sprint] prints digits, after a minus sign at most, and never nothing. *)
Lemma Sprint_bytes (n : Z) :
  allBytes numberByte (Sprint n) = true /\ Sprint n <> EmptyString.
Proof.
  assert (D : forall d, allBytes numberByte (NilEmpty.string_of_uint d) = true).
  { intros d. apply (allBytes_weaken isDigit); [|apply uint_digits].
    intros c Hc. unfold numberByte. now rewrite Hc. }
  destruct n as [|p|p]; unfold Sprint; cbn [Z.to_int NilZero.string_of_int].
  - split; [reflexivity | discriminate].
  - rewrite string_of_pos. split; [apply D|].
    apply uint_not_empty, Unsigned.to_uint_nonnil.
  - rewrite string_of_pos. split; [|discriminate].
    cbn [allBytes]. now rewrite D.
Qed.

(** ** [Split] and [Join] *)

Lemma Split_Join (pieces : list string) (sep : ascii) :
  pieces <> [] ->
  (forall p, In p pieces -> contains sep p = false) ->
  Split (Join pieces sep) sep = pieces.
Proof.
  induction pieces as [|p rest IH]; [contradiction|]. intros _ H.
  destruct rest as [|q rest].
  - simpl. apply Split_without, H. now left.
  - change (Join (p :: q :: rest) sep) with (p ++ String sep (Join (q :: rest) sep)).
    rewrite Split_append by (apply H; now left).
    f_equal. apply IH; [discriminate|]. intros x Hx. apply H. now right.
Qed.

Lemma allBytes_Join (P : ascii -> bool) (pieces : list string) (sep : ascii) :
  P sep = true ->
  (forall p, In p pieces -> allBytes P p = true) ->
  allBytes P (Join pieces sep) = true.
Proof.
  intros Hsep. induction pieces as [|p rest IH]; intros H; [reflexivity|].
  destruct rest as [|q rest]; [apply H; now left|].
  change (Join (p :: q :: rest) sep) with (p ++ String sep (Join (q :: rest) sep)).
  rewrite allBytes_append. cbn [allBytes].
  rewrite (H p (or_introl eq_refl)), Hsep, IH; [reflexivity|].
  intros x Hx. apply H. now right.
Qed.

Lemma Join_not_empty (p : string) (rest : list string) (sep : ascii) :
  p <> EmptyString -> Join (p :: rest) sep <> EmptyString.
Proof.
  intros Hp. destruct rest as [|q rest]; [exact Hp|].
  change (Join (p :: q :: rest) sep) with (p ++ String sep (Join (q :: rest) sep)).
  destruct p; [contradiction | discriminate].
Qed.

(** ** The access policy and the allow-list *)

Lemma UserIsAuthorized_In (userId : Z) (ids : list Z) :
  ids <> [] -> (UserIsAuthorized userId ids = true <-> In userId ids).
Proof.
  intros Hne. destruct ids as [|a l]; [contradiction|]. clear Hne.
  assert (H : forall ids : list Z,
             (fix range (ids : list Z) : bool :=
                match ids with
                | [] => false
                | allowedUserId :: rest =>
                    if userId =? allowedUserId then true else range rest
                end) ids = true <-> In userId ids).
  { induction ids as [|x ids IH]; simpl.
    - split; [discriminate | contradiction].
    - destruct (Z.eqb_spec userId x) as [-> | Hne].
      + split; auto.
      + rewrite IH. split; [auto | intros [E | H]; [congruence | exact H]]. }
  exact (H (a :: l)).
Qed.

(** X9. The allow-list counts as a set: two lists with the same members
    authorize the same callers, whatever the order and the repetitions. *)
Theorem UserIsAuthorized_same_members (userId : Z) (ids ids' : list Z) :
  (forall x : Z, In x ids <-> In x ids') ->
  UserIsAuthorized userId ids = UserIsAuthorized userId ids'.
Proof.
  intros H. destruct ids as [|a l], ids' as [|a' l']; [reflexivity | | |].
  - exfalso. apply (proj2 (H a')). now left.
  - exfalso. apply (proj1 (H a)). now left.
  - destruct (UserIsAuthorized_In userId (a :: l) ltac:(discriminate))
      as [H1a H1b].
    destruct (UserIsAuthorized_In userId (a' :: l') ltac:(discriminate))
      as [H2a H2b].
    destruct (UserIsAuthorized userId (a :: l)).
    + symmetry. apply H2b, H, H1a. reflexivity.
    + destruct (UserIsAuthorized userId (a' :: l')); [|reflexivity].
      apply H1b, H, H2a. reflexivity.
Qed.

Lemma UserIsAuthorized_same_members_witness :
  UserIsAuthorized 7 [12; 7; 12] = UserIsAuthorized 7 [7; 12]
  /\ UserIsAuthorized 8 [12; 7; 12] = UserIsAuthorized 8 [7; 12].
Proof.
  assert (H : forall x : Z, In x [12; 7; 12] <-> In x [7; 12])
    by (intros x; simpl; tauto).
  split; apply UserIsAuthorized_same_members; exact H.
Defined.

Section AllowListProperties.

Context {env : Environ} {space : UnicodeSpace} {quote : StrconvQuote}.

Lemma asciiSpace_code (c : ascii) : asciiSpace c = true -> (128 <=? code c) = false.
Proof.
  unfold asciiSpace. intros H. apply Z.leb_gt.
  repeat (apply orb_true_iff in H as [H | H]); apply Z.eqb_eq in H; lia.
Qed.

Lemma TrimSpace_blank (s : string) :
  allBytes asciiSpace s = true -> TrimSpace s = EmptyString.
Proof.
  induction s as [|c s IH]; simpl; [reflexivity|]. intros H.
  apply andb_true_iff in H as [Hc Hs].
  now rewrite (asciiSpace_code c Hc), Hc, IH.
Qed.

Lemma list_ascii_append (a b : string) :
  list_ascii_of_string (a ++ b)
  = (list_ascii_of_string a ++ list_ascii_of_string b)%list.
Proof. induction a as [|c a IH]; simpl; [reflexivity | now rewrite IH]. Qed.

Lemma allBytes_forallb (P : ascii -> bool) (s : string) :
  allBytes P s = forallb P (list_ascii_of_string s).
Proof. induction s as [|c s IH]; simpl; [reflexivity | now rewrite IH]. Qed.

Lemma forallb_rev (P : ascii -> bool) (l : list ascii) :
  forallb P (rev l) = forallb P l.
Proof.
  induction l as [|c l IH]; simpl; [reflexivity|].
  rewrite forallb_app, IH. simpl. now rewrite andb_true_r, andb_comm.
Qed.

Lemma trimRightLoop_spaces (l k : list ascii) :
  forallb asciiSpace l = true -> trimRightLoop (l ++ k) = trimRightLoop k.
Proof.
  induction l as [|c l IH]; simpl; [reflexivity|]. intros H.
  apply andb_true_iff in H as [Hc Hl].
  now rewrite (asciiSpace_code c Hc), Hc, IH.
Qed.

Lemma inkByte_inv (c : ascii) :
  inkByte c = true -> (128 <=? code c) = false /\ asciiSpace c = false.
Proof.
  unfold inkByte. intros H. apply andb_true_iff in H as [H1 H2].
  apply negb_true_iff in H2. split; [apply Z.leb_gt; lia | exact H2].
Qed.

(** A word between white space: [TrimSpace] gives the word. *)
Lemma TrimSpace_word (pre word post : string) :
  allBytes asciiSpace pre = true -> allBytes asciiSpace post = true ->
  word <> EmptyString -> allBytes inkByte word = true ->
  TrimSpace (pre ++ word ++ post) = word.
Proof.
  intros Hpre Hpost Hne Hw.
  induction pre as [|c pre IH]; simpl.
  - destruct word as [|c0 word']; [contradiction|].
    change (String c0 word' ++ post) with (String c0 (word' ++ post)).
    cbn [TrimSpace]. simpl in Hw. apply andb_true_iff in Hw as [Hc0 Hw'].
    destruct (inkByte_inv c0 Hc0) as [-> ->].
    change (String c0 (word' ++ post)) with (String c0 word' ++ post).
    rewrite list_ascii_append, rev_app_distr.
    rewrite trimRightLoop_spaces
      by (rewrite forallb_rev, <- allBytes_forallb; exact Hpost).
    assert (Hall : forallb inkByte (rev (list_ascii_of_string (String c0 word'))) = true).
    { rewrite forallb_rev, <- allBytes_forallb. simpl. now rewrite Hc0, Hw'. }
    destruct (rev (list_ascii_of_string (String c0 word'))) as [|z l] eqn:E.
    + apply (f_equal (@List.length ascii)) in E.
      rewrite length_rev in E. discriminate E.
    + simpl in Hall. apply andb_true_iff in Hall as [Hz _].
      cbn [trimRightLoop]. destruct (inkByte_inv z Hz) as [-> ->].
      rewrite <- E, rev_involutive. apply string_of_list_ascii_of_string.
  - simpl in Hpre. apply andb_true_iff in Hpre as [Hc Hp].
    rewrite (asciiSpace_code c Hc), Hc. now apply IH.
Qed.

Lemma ParseInt_ok (p : string) (v : Z) :
  Atoi p = (v, None) -> ParseInt p = (v, None).
Proof. unfold ParseInt. now intros ->. Qed.

Lemma ParseInt_error (p : string) (v : Z) (cause : string) :
  Atoi p = (v, Some cause) ->
  ParseInt p
  = (v, Some ("strconv.ParseInt: parsing " ++ strconv_Quote p ++ ": " ++ cause)).
Proof. unfold ParseInt. now intros ->. Qed.

Lemma rangeUserIds_good (pieces : list string) :
  forall ids : list Z,
    forallb (fun p => isNil (snd (Atoi p))) pieces = true ->
    rangeUserIds pieces ids
    = ((ids ++ map (fun p => fst (Atoi p)) pieces)%list, None).
Proof.
  induction pieces as [|p rest IH]; intros ids H; simpl.
  - now rewrite app_nil_r.
  - simpl in H. apply andb_true_iff in H as [Hp Hrest].
    destruct (Atoi p) as [v e] eqn:E. destruct e; [discriminate|].
    rewrite (ParseInt_ok p v E), IH by exact Hrest.
    simpl. now rewrite <- app_assoc.
Qed.

Lemma rangeUserIds_bad (good : list string) (bad : string) (rest : list string)
    (cause : string) :
  forall ids : list Z,
    forallb (fun p => isNil (snd (Atoi p))) good = true ->
    snd (Atoi bad) = Some cause ->
    rangeUserIds (good ++ bad :: rest) ids
    = ([], Some ("unable to parse " ++ bad
                 ++ " into an int64: strconv.ParseInt: parsing "
                 ++ strconv_Quote bad ++ ": " ++ cause)).
Proof.
  induction good as [|p good IH]; intros ids H Hbad; simpl.
  - destruct (Atoi bad) as [v e] eqn:E. simpl in Hbad. subst e.
    now rewrite (ParseInt_error bad v cause E).
  - simpl in H. apply andb_true_iff in H as [Hp Hgood].
    destruct (Atoi p) as [v e] eqn:E. destruct e; [discriminate|].
    rewrite (ParseInt_ok p v E). now apply IH.
Qed.

(** The first piece that does not parse, if there is one. *)
Lemma first_bad_piece (pieces : list string) :
  forallb (fun p => isNil (snd (Atoi p))) pieces = false ->
  exists (good : list string) (bad : string) (rest : list string) (cause : string),
    pieces = (good ++ bad :: rest)%list
    /\ forallb (fun p => isNil (snd (Atoi p))) good = true
    /\ snd (Atoi bad) = Some cause.
Proof.
  induction pieces as [|p pieces IH]; simpl; [discriminate|]. intros H.
  destruct (snd (Atoi p)) as [cause|] eqn:E.
  - now exists [], p, pieces, cause.
  - simpl in H. destruct (IH H) as (good & bad & rest & cause & -> & Hg & Hb).
    exists (p :: good), bad, rest, cause. simpl. now rewrite E, Hg.
Qed.

Lemma digits_contains (c : ascii) (s : string) :
  isDigit c = false -> contains c s = true ->
  forall acc : Z, digits acc s = None.
Proof.
  intros Hc. induction s as [|x s IH]; simpl; [discriminate|]. intros H acc.
  destruct (Ascii.eqb_spec x c) as [-> | _]; [now rewrite Hc|].
  simpl in H. destruct (isDigit x); [now apply IH | reflexivity].
Qed.

(** A piece that is empty, or holds a byte that is no digit and no sign,
    is no number. *)
Lemma Atoi_not_number (p : string) :
  p = EmptyString
  \/ (exists c : ascii,
         contains c p = true /\ isDigit c = false
         /\ c <> "-"%char /\ c <> "+"%char) ->
  snd (Atoi p) <> None.
Proof.
  intros [-> | (c & Hin & Hd & Hm & Hp)]; [discriminate|].
  unfold Atoi. destruct p as [|x r]; [discriminate|].
  assert (Hbody : contains c (if Ascii.eqb x "-" || Ascii.eqb x "+"
                              then r else String x r) = true).
  { simpl in Hin. apply orb_true_iff in Hin as [Hx | Hr].
    - apply Ascii.eqb_eq in Hx. subst x.
      rewrite (proj2 (Ascii.eqb_neq c "-") Hm), (proj2 (Ascii.eqb_neq c "+") Hp).
      simpl. now rewrite Ascii.eqb_refl.
    - destruct (Ascii.eqb x "-" || Ascii.eqb x "+"); [exact Hr|].
      simpl. rewrite Hr. apply orb_true_r. }
  destruct (if Ascii.eqb x "-" || Ascii.eqb x "+" then r else String x r)
    as [|y body] eqn:E; [discriminate|].
  now rewrite (digits_contains c (String y body) Hd Hbody).
Qed.

(** X10. When the variable is not set, is empty or holds ASCII white space
    only, the allow-list is empty and nothing is an error: every caller is
    authorized then. *)
Theorem LoadAuthorizedUserIds_blank (authorizedUsersEnv : string) :
  allBytes asciiSpace (os_Getenv authorizedUsersEnv) = true ->
  LoadAuthorizedUserIds authorizedUsersEnv = ([], None)
  /\ forall userId : Z,
       UserIsAuthorized userId (fst (LoadAuthorizedUserIds authorizedUsersEnv))
       = true.
Proof.
  intros H.
  assert (E : LoadAuthorizedUserIds authorizedUsersEnv = ([], None)).
  { unfold LoadAuthorizedUserIds. now rewrite (TrimSpace_blank _ H). }
  split; [exact E|]. intros userId. now rewrite E.
Qed.


(** X12. A value made of decimal identifiers that fit an [int], put
    between commas without white space, with ASCII white space before and
    after at most, loads as these identifiers, and then exactly they are
    authorized. *)
Theorem LoadAuthorizedUserIds_round_trip (authorizedUsersEnv : string)
    (ids : list Z) (pre post : string) :
  ids <> [] ->
  (forall id : Z, In id ids -> GoInt.inRange id) ->
  allBytes asciiSpace pre = true -> allBytes asciiSpace post = true ->
  os_Getenv authorizedUsersEnv = pre ++ Join (map Sprint ids) "," ++ post ->
  LoadAuthorizedUserIds authorizedUsersEnv = (ids, None)
  /\ forall userId : Z,
       UserIsAuthorized userId (fst (LoadAuthorizedUserIds authorizedUsersEnv))
       = true <-> In userId ids.
Proof.
  intros Hne Hrange Hpre Hpost Henv.
  assert (Hnum : forall c, numberByte c = true -> inkByte c = true).
  { intros c H. unfold numberByte in H. apply orb_true_iff in H as [H | H].
    - apply isDigit_code in H. unfold inkByte, asciiSpace.
      apply andb_true_iff. split; [lia|]. apply negb_true_iff.
      repeat (apply orb_false_iff; split); lia.
    - apply Ascii.eqb_eq in H. now subst c. }
  assert (Hword : allBytes inkByte (Join (map Sprint ids) ",") = true).
  { apply allBytes_Join; [reflexivity|]. intros p Hp.
    apply in_map_iff in Hp as (n & <- & _).
    apply (allBytes_weaken numberByte); [exact Hnum | apply Sprint_bytes]. }
  assert (Hjoin : Join (map Sprint ids) "," <> EmptyString).
  { destruct ids as [|n ids]; [contradiction|]. apply Join_not_empty, Sprint_bytes. }
  assert (Hsplit : Split (Join (map Sprint ids) ",") "," = map Sprint ids).
  { apply Split_Join; [now destruct ids|]. intros p Hp.
    apply in_map_iff in Hp as (n & <- & _).
    apply (allBytes_contains numberByte); [reflexivity | apply Sprint_bytes]. }
  assert (E : LoadAuthorizedUserIds authorizedUsersEnv = (ids, None)).
  { unfold LoadAuthorizedUserIds.
    rewrite Henv, (TrimSpace_word pre _ post Hpre Hpost Hjoin Hword).
    rewrite (proj2 (String.eqb_neq _ _) Hjoin), Hsplit.
    rewrite rangeUserIds_good.
    - simpl. f_equal. rewrite map_map.
      rewrite <- (map_id ids) at 2. apply map_ext_in.
      intros n Hn. now rewrite (Atoi_Sprint n (Hrange n Hn)).
    - apply forallb_forall. intros p Hp.
      apply in_map_iff in Hp as (n & <- & Hn).
      now rewrite (Atoi_Sprint n (Hrange n Hn)). }
  split; [exact E|]. intros userId. rewrite E. now apply UserIsAuthorized_In.
Qed.

(** X13. The pieces are not trimmed one by one: a piece that is empty, as
    after a trailing comma, or that holds a byte that is no digit and no
    sign, as a space after a comma, makes the whole loading fail. *)
Theorem LoadAuthorizedUserIds_bad_piece (authorizedUsersEnv p : string) :
  TrimSpace (os_Getenv authorizedUsersEnv) <> EmptyString ->
  In p (Split (TrimSpace (os_Getenv authorizedUsersEnv)) ",") ->
  p = EmptyString
  \/ (exists c : ascii,
         contains c p = true /\ isDigit c = false
         /\ c <> "-"%char /\ c <> "+"%char) ->
  exists reason : string,
    LoadAuthorizedUserIds authorizedUsersEnv = ([], Some reason).
Proof.
  intros Hne Hin Hbad. apply Atoi_not_number in Hbad.
  unfold LoadAuthorizedUserIds. rewrite (proj2 (String.eqb_neq _ _) Hne).
  destruct (forallb (fun p => isNil (snd (Atoi p)))
              (Split (TrimSpace (os_Getenv authorizedUsersEnv)) ",")) eqn:F.
  - exfalso. rewrite forallb_forall in F. specialize (F p Hin).
    now destruct (snd (Atoi p)).
  - destruct (first_bad_piece _ F) as (good & bad & rest & cause & -> & Hg & Hb).
    rewrite (rangeUserIds_bad good bad rest cause [] Hg Hb). eauto.
Qed.

End AllowListProperties.

Lemma LoadAuthorizedUserIds_blank_witness :
  LoadAuthorizedUserIds (env := Host.env) (space := Host.space)
    (quote := Host.quote) "UNSET" = ([], None)
  /\ forall userId : Z,
       UserIsAuthorized userId
         (fst (LoadAuthorizedUserIds (env := Host.env) (space := Host.space)
                 (quote := Host.quote) "UNSET")) = true.
Proof.
  exact (LoadAuthorizedUserIds_blank (env := Host.env) (space := Host.space)
           (quote := Host.quote) "UNSET" eq_refl).
Defined.


Lemma LoadAuthorizedUserIds_round_trip_witness :
  LoadAuthorizedUserIds (env := Host.env) (space := Host.space)
    (quote := Host.quote) "AUTHORIZED_USERS" = ([12; -7; 12345678901], None)
  /\ forall userId : Z,
       UserIsAuthorized userId
         (fst (LoadAuthorizedUserIds (env := Host.env) (space := Host.space)
                 (quote := Host.quote) "AUTHORIZED_USERS")) = true
       <-> In userId [12; -7; 12345678901].
Proof.
  assert (Hne : [12; -7; 12345678901] <> []) by discriminate.
  assert (Hr : forall id : Z, In id [12; -7; 12345678901] -> GoInt.inRange id).
  { intros id [<- | [<- | [<- | []]]]; vm_compute; split; discriminate. }
  exact (LoadAuthorizedUserIds_round_trip (env := Host.env)
           (space := Host.space) (quote := Host.quote) "AUTHORIZED_USERS"
           [12; -7; 12345678901] "  " " " Hne Hr eq_refl eq_refl eq_refl).
Defined.

Lemma LoadAuthorizedUserIds_bad_piece_witness :
  (exists reason : string,
      LoadAuthorizedUserIds (env := Host.env) (space := Host.space)
        (quote := Host.quote) "SPACED" = ([], Some reason))
  /\ (exists reason : string,
         LoadAuthorizedUserIds (env := Host.env) (space := Host.space)
           (quote := Host.quote) "TRAILING" = ([], Some reason)).
Proof.
  split.
  - assert (H : TrimSpace (space := Host.space)
                  (os_Getenv (Environ := Host.env) "SPACED")
                <> EmptyString) by (vm_compute; discriminate).
    apply (LoadAuthorizedUserIds_bad_piece (env := Host.env)
             (space := Host.space) (quote := Host.quote) "SPACED" " 7" H).
    + simpl. tauto.
    + right. exists " "%char. repeat split; try reflexivity; discriminate.
  - assert (H : TrimSpace (space := Host.space)
                  (os_Getenv (Environ := Host.env) "TRAILING")
                <> EmptyString) by (vm_compute; discriminate).
    apply (LoadAuthorizedUserIds_bad_piece (env := Host.env)
             (space := Host.space) (quote := Host.quote) "TRAILING" EmptyString H).
    + simpl. tauto.
    + now left.
Defined.

(** ** The file names of the pipeline *)

Lemma extLoop_plain (l : list ascii) :
  forall (rest : list ascii) (seen : string),
    forallb (fun c => negb (Ascii.eqb c "/") && negb (Ascii.eqb c ".")) l = true ->
    extLoop (rev l ++ rest) seen
    = extLoop rest (string_of_list_ascii l ++ seen).
Proof.
  induction l as [|c l IH]; intros rest seen H; [reflexivity|].
  simpl in H. apply andb_true_iff in H as [Hc Hl].
  apply andb_true_iff in Hc as [H1 H2]. apply negb_true_iff in H1, H2.
  simpl rev. rewrite <- app_assoc. rewrite IH by exact Hl.
  simpl. now rewrite H1, H2.
Qed.

Lemma plain_extension (ext : string) :
  contains "." ext = false -> contains "/" ext = false ->
  forallb (fun c => negb (Ascii.eqb c "/") && negb (Ascii.eqb c "."))
    (list_ascii_of_string ext) = true.
Proof.
  induction ext as [|c ext IH]; simpl; [reflexivity|]. intros H1 H2.
  apply orb_false_iff in H1 as [H1 H1'], H2 as [H2 H2'].
  now rewrite H1, H2, IH.
Qed.

(** The extension of a path that ends in a dot and a text without dot or
    slash is that dot and text. *)
Lemma filepath_Ext_suffix (stem ext : string) :
  contains "." ext = false -> contains "/" ext = false ->
  filepath_Ext (stem ++ "." ++ ext) = "." ++ ext.
Proof.
  intros H1 H2. unfold filepath_Ext.
  change (stem ++ "." ++ ext) with (stem ++ String "." ext).
  rewrite list_ascii_append, rev_app_distr. simpl rev.
  rewrite <- app_assoc, extLoop_plain by now apply plain_extension.
  simpl. now rewrite string_of_list_ascii_of_string, append_nil_r.
Qed.

(** A path without a dot has no extension. *)
Lemma filepath_Ext_none (path : string) :
  contains "." path = false -> filepath_Ext path = EmptyString.
Proof.
  intros H. unfold filepath_Ext.
  assert (G : forall (l : list ascii) (seen : string),
             forallb (fun c => negb (Ascii.eqb c ".")) l = true ->
             extLoop l seen = EmptyString).
  { induction l as [|c l IH]; intros seen Hl; [reflexivity|].
    simpl in Hl. apply andb_true_iff in Hl as [Hc Hl].
    apply negb_true_iff in Hc. simpl. rewrite Hc.
    destruct (Ascii.eqb c "/"); [reflexivity | now apply IH]. }
  apply G. rewrite forallb_rev. clear G.
  induction path as [|c path IH]; simpl; [reflexivity|].
  simpl in H. apply orb_false_iff in H as [Hc Hp]. now rewrite Hc, IH.
Qed.

Lemma sliceTo_stem (stem tail : string) :
  sliceTo (stem ++ tail) (String.length (stem ++ tail) - String.length tail) = stem.
Proof.
  unfold sliceTo. rewrite length_append.
  replace (String.length stem + String.length tail - String.length tail)%nat
    with (String.length stem) by lia.
  apply substring_prefix.
Qed.

Section PipelineFurther.

Context {World : Type} {sys : System World}.

(** What a successful cut returns. *)
Lemma CutVideo_inv (videoFilename : string) (startSecond endSecond : Z)
    (audioOnly : bool) (st st' : State World) (out : string) :
  CutVideo videoFilename startSecond endSecond audioOnly st = ((out, None), st') ->
  out = sliceTo videoFilename
          (String.length videoFilename
           - String.length (filepath_Ext videoFilename))
        ++ "-cut"
        ++ (if audioOnly then ".mp3" else filepath_Ext videoFilename)
  /\ exists c : Cmd, ran st' = (ran st ++ [c])%list.
Proof.
  unfold CutVideo, exec_LookPath, liftSys, bind at 1.
  destruct (sys_LookPath "ffmpeg" (world st)) as [[p e0] w].
  destruct e0; [discriminate|]. cbv beta iota zeta. unfold bind, Run.
  cbn [world ran].
  match goal with |- context [sys_Run ?c w] =>
    destruct (sys_Run c w) as [e1 w'] eqn:E end.
  destruct e1; [discriminate|].
  intros [= <- <-]. cbn [ran]. split; [|eauto].
  destruct audioOnly; now rewrite append_assoc.
Qed.

(** X14. The cut file is named after the downloaded one, [-cut] coming
    before the extension, which is [.mp3] for an audio request and the
    downloaded file's own otherwise; a file without a dot gets [-cut] at
    its end. *)
Theorem CutVideo_name (startSecond endSecond : Z) (audioOnly : bool)
    (st st' : State World) (out : string) :
  (forall stem ext : string,
      contains "." ext = false -> contains "/" ext = false ->
      CutVideo (stem ++ "." ++ ext) startSecond endSecond audioOnly st
      = ((out, None), st') ->
      out = stem ++ "-cut" ++ (if audioOnly then ".mp3" else "." ++ ext))
  /\ (forall file : string,
         contains "." file = false ->
         CutVideo file startSecond endSecond audioOnly st = ((out, None), st') ->
         out = file ++ "-cut" ++ (if audioOnly then ".mp3" else EmptyString)).
Proof.
  split.
  - intros stem ext H1 H2 H. apply CutVideo_inv in H as [-> _].
    rewrite (filepath_Ext_suffix stem ext H1 H2).
    change (stem ++ "." ++ ext) with (stem ++ ("." ++ ext)).
    now rewrite sliceTo_stem.
  - intros file H1 H. apply CutVideo_inv in H as [-> _].
    rewrite (filepath_Ext_none file H1).
    rewrite <- (append_nil_r file) at 1 2. now rewrite sliceTo_stem.
Qed.



(** X16. A request that fails returns no path, and its error is the cause
    after the words [unable to download video], the URL and a colon. *)
Theorem DownloadVideo_error (videoUrl : string) (startSecond endSecond : Z)
    (audioOnly : bool) (st st' : State World) (out reason : string) :
  DownloadVideo videoUrl startSecond endSecond audioOnly st
  = ((out, Some reason), st') ->
  out = EmptyString
  /\ exists cause : string,
       reason = "unable to download video " ++ videoUrl ++ ": " ++ cause.
Proof.
  unfold DownloadVideo, bind at 1.
  destruct (BuildYtdlpCmd videoUrl audioOnly st)
    as [[[[ytdlpPath file] ytdlpArgs] e0] st1].
  destruct e0 as [e0|]; [intros [= <- <- <-]; split; [reflexivity | eexists; reflexivity]|].
  cbv beta iota zeta. unfold bind at 1.
  destruct (Run (exec_Command ytdlpPath ytdlpArgs) st1) as [e1 st2].
  destruct e1 as [e1|]; [intros [= <- <- <-]; split; [reflexivity | eexists; reflexivity]|].
  destruct (negb (startSecond =? InvalidVideoSecond)
            && negb (endSecond =? InvalidVideoSecond)); [|discriminate].
  unfold bind.
  destruct (CutVideo file startSecond endSecond audioOnly st2) as [[o e2] st3].
  destruct e2 as [e2|]; [intros [= <- <- <-]; split; [reflexivity | eexists; reflexivity] | discriminate].
Qed.

Lemma CutVideo_ran_any (videoFilename : string) (startSecond endSecond : Z)
    (audioOnly : bool) (st : State World) :
  exists cmds : list Cmd,
    ran (snd (CutVideo videoFilename startSecond endSecond audioOnly st))
    = (ran st ++ cmds)%list
    /\ (List.length cmds <= 1)%nat
    /\ (snd (fst (CutVideo videoFilename startSecond endSecond audioOnly st)) = None ->
        List.length cmds = 1%nat).
Proof.
  unfold CutVideo, exec_LookPath, liftSys, bind at 1 2 3.
  destruct (sys_LookPath "ffmpeg" (world st)) as [[p e0] w].
  destruct e0.
  - exists []. cbn. rewrite app_nil_r. repeat split; [lia | discriminate].
  - cbv beta iota zeta. unfold bind, Run. cbn [world ran].
    match goal with |- context [sys_Run ?c w] =>
      exists [c]; destruct (sys_Run c w) as [e1 w'] end.
    destruct e1; cbn; repeat split; lia.
Qed.

(** X17. A request runs two commands at most, after those run before; a
    request that succeeds has run exactly one without a span and exactly
    two with a span. *)
Theorem DownloadVideo_commands (videoUrl : string) (startSecond endSecond : Z)
    (audioOnly : bool) (st : State World) :
  exists cmds : list Cmd,
    ran (snd (DownloadVideo videoUrl startSecond endSecond audioOnly st))
    = (ran st ++ cmds)%list
    /\ (List.length cmds <= 2)%nat
    /\ (snd (fst (DownloadVideo videoUrl startSecond endSecond audioOnly st)) = None ->
        List.length cmds
        = if negb (startSecond =? -1) && negb (endSecond =? -1)
          then 2%nat else 1%nat).
Proof.
  pose proof (BuildYtdlpCmd_ran videoUrl audioOnly st) as Hplan.
  remember (DownloadVideo videoUrl startSecond endSecond audioOnly st) as result
    eqn:Er.
  unfold DownloadVideo in Er. unfold bind at 1 in Er.
  destruct (BuildYtdlpCmd videoUrl audioOnly st)
    as [[[[ytdlpPath file] ytdlpArgs] e0] st1].
  simpl in Hplan. destruct e0 as [e0|].
  { subst result. exists []. cbn. rewrite app_nil_r.
    repeat split; [auto | lia | discriminate]. }
  unfold bind at 1 in Er.
  pose proof (Run_ran (exec_Command ytdlpPath ytdlpArgs) st1) as Hrun.
  destruct (Run (exec_Command ytdlpPath ytdlpArgs) st1) as [e1 st2].
  simpl in Hrun. rewrite Hplan in Hrun. destruct e1 as [e1|].
  { subst result. exists [exec_Command ytdlpPath ytdlpArgs]. cbn.
    repeat split; [auto | lia | discriminate]. }
  unfold InvalidVideoSecond in Er.
  destruct (negb (startSecond =? -1) && negb (endSecond =? -1)).
  - destruct (CutVideo_ran_any file startSecond endSecond audioOnly st2)
      as (cmds & Hc & Hlen & Hone).
    unfold bind in Er.
    destruct (CutVideo file startSecond endSecond audioOnly st2)
      as [[o e2] st3].
    simpl in Hc, Hone. exists (exec_Command ytdlpPath ytdlpArgs :: cmds).
    destruct e2; subst result; cbn.
    + rewrite Hc, Hrun, <- app_assoc. repeat split; [lia | discriminate].
    + rewrite Hc, Hrun, <- app_assoc. repeat split; [lia|].
      intros _. now rewrite Hone.
  - subst result. exists [exec_Command ytdlpPath ytdlpArgs]. cbn.
    repeat split; [auto | lia].
Qed.

End PipelineFurther.

Lemma CutVideo_name_witness :
  CutVideo (sys := Machine.system) "/tmp/gatonaranja.42.mp4" 10 51 true
    Machine.start
  = (("/tmp/gatonaranja.42-cut.mp3", None),
     {| world := tt;
        ran := [exec_Command "/usr/bin/ffmpeg"
                  ["-ss"; "10"; "-i"; "/tmp/gatonaranja.42.mp4"; "-t"; "41";
                   "/tmp/gatonaranja.42-cut.mp3"]] |})
  /\ "/tmp/gatonaranja.42-cut.mp3"
     = "/tmp/gatonaranja.42" ++ "-cut" ++ ".mp3"
  /\ "/tmp/video-cut" = "/tmp/video" ++ "-cut" ++ EmptyString.
Proof.
  split; [reflexivity|]. split.
  - exact (proj1 (CutVideo_name (sys := Machine.system) 10 51 true
                    Machine.start _ "/tmp/gatonaranja.42-cut.mp3")
             "/tmp/gatonaranja.42" "mp4" eq_refl eq_refl eq_refl).
  - exact (proj2 (CutVideo_name (sys := Machine.system) 10 51 false
                    Machine.start _ "/tmp/video-cut")
             "/tmp/video" eq_refl eq_refl).
Defined.


Lemma DownloadVideo_error_witness :
  EmptyString = EmptyString
  /\ exists cause : string,
       "unable to download video https://x/y: yt-dlp is not installed: not found"
       = "unable to download video " ++ "https://x/y" ++ ": " ++ cause.
Proof.
  exact (DownloadVideo_error (sys := Host.offline) "https://x/y" 10 51 false
           Machine.start _ EmptyString
           "unable to download video https://x/y: yt-dlp is not installed: not found"
           eq_refl).
Defined.

Lemma DownloadVideo_commands_witness :
  exists cmds : list Cmd,
    ran (snd (DownloadVideo (sys := Machine.system) "https://x/y" 10 51 false
                Machine.start))
    = (ran Machine.start ++ cmds)%list
    /\ (List.length cmds <= 2)%nat
    /\ (snd (fst (DownloadVideo (sys := Machine.system) "https://x/y" 10 51
                    false Machine.start)) = None ->
        List.length cmds = 2%nat).
Proof.
  exact (DownloadVideo_commands (sys := Machine.system) "https://x/y" 10 51
           false Machine.start).
Defined.

(** ** The startup check *)

Section StartupProperties.

Context {World : Type} {sys : System World}.

(** X18. On a machine whose search path is read without a change of the
    world, the startup check changes nothing and runs nothing; it passes
    exactly when [ffmpeg] and [yt-dlp] are both found, and a missing
    [ffmpeg] is the one reported, whether [yt-dlp] is there or not. *)
Theorem CheckSystemHasRequiredDependencies_found (st : State World) :
  (forall (file : string) (w : World), snd (sys_LookPath file w) = w) ->
  snd (CheckSystemHasRequiredDependencies st) = st
  /\ (fst (CheckSystemHasRequiredDependencies st) = None <->
      snd (fst (sys_LookPath "ffmpeg" (world st))) = None
      /\ snd (fst (sys_LookPath "yt-dlp" (world st))) = None)
  /\ (forall e : string,
         snd (fst (sys_LookPath "ffmpeg" (world st))) = Some e ->
         fst (CheckSystemHasRequiredDependencies st)
         = Some ("dependency ffmpeg is not installed in the system: " ++ e)).
Proof.
  intros Hpure. destruct st as [w0 r0].
  unfold CheckSystemHasRequiredDependencies, bind, exec_LookPath, liftSys, ret.
  cbn [world ran].
  pose proof (Hpure "ffmpeg" w0) as P1.
  destruct (sys_LookPath "ffmpeg" w0) as [[p1 e1] w1]. simpl in P1. subst w1.
  cbn [snd fst].
  destruct e1 as [e1|].
  - cbn. split; [reflexivity|]. split.
    + split; [discriminate | intros [H _]; discriminate H].
    + now intros e [= ->].
  - cbv beta iota zeta delta [world ran snd fst].
    pose proof (Hpure "yt-dlp" w0) as P2.
    destruct (sys_LookPath "yt-dlp" w0) as [[p2 e2] w2]. simpl in P2. subst w2.
    cbn [snd fst]. destruct e2 as [e2|]; cbn.
    + split; [reflexivity|]. split; [|discriminate].
      split; [discriminate | intros [_ H]; discriminate H].
    + split; [reflexivity|]. split; [|discriminate]. now split.
Qed.

End StartupProperties.

Lemma CheckSystemHasRequiredDependencies_found_witness :
  snd (CheckSystemHasRequiredDependencies (sys := Host.bare) Machine.start)
  = Machine.start
  /\ fst (CheckSystemHasRequiredDependencies (sys := Host.bare) Machine.start)
     = Some "dependency ffmpeg is not installed in the system: not found"
  /\ fst (CheckSystemHasRequiredDependencies (sys := Machine.system) Machine.start)
     = None.
Proof.
  assert (P : forall (s : System unit) (file : string) (w : unit),
             snd (sys_LookPath file w) = w) by (intros s file []; now destruct (snd _)).
  destruct (CheckSystemHasRequiredDependencies_found (sys := Host.bare)
              Machine.start (P Host.bare)) as (H1 & _ & H3).
  destruct (CheckSystemHasRequiredDependencies_found (sys := Machine.system)
              Machine.start (P Machine.system)) as (_ & H2 & _).
  split; [exact H1|]. split.
  - exact (H3 "not found" eq_refl).
  - apply H2. split; reflexivity.
Defined.

(** ** From the line to the cut *)

Section RequestProperties.

Context {net : NetURL} {uni : Unicode}.
Context {World : Type} {sys : System World}.

Lemma LoadDownloadConfigFromMsg_range (msg : string) (videoUrl : URL)
    (s e : Z) (a : bool) :
  LoadDownloadConfigFromMsg msg = (videoUrl, s, e, a, None) ->
  (s = -1 /\ e = -1) \/ (0 <= s /\ s < e /\ e <= maxSecond).
Proof.
  unfold LoadDownloadConfigFromMsg, InvalidVideoSecond.
  destruct (url_Parse (index (Split msg " ") 0)) as [u|]; [|discriminate].
  destruct (List.length (Split msg " ") =? 1)%nat;
    [intros [= <- <- <- <-]; now left|].
  destruct (String.eqb (ToLower (index (Split msg " ") 1)) "audio");
    [intros [= <- <- <- <-]; now left|].
  destruct (ParseStartEndSeconds (ToLower (index (Split msg " ") 1)))
    as [[s0 e0] err] eqn:E.
  destruct err; simpl; [discriminate|].
  apply ParseStartEndSeconds_range in E.
  destruct (List.length (Split msg " ") =? 2)%nat;
    [intros [= <- <- <- <-]; now right|].
  destruct (3 <? List.length (Split msg " "))%nat; [discriminate|].
  destruct (String.eqb (index (Split msg " ") 2) "audio"); simpl;
    [|discriminate].
  intros [= <- <- <- <-]. now right.
Qed.

(** X19. For a request the parser has accepted, a start second other than
    [-1] is enough for the cut: once the download has succeeded and
    [ffmpeg] is found, the commands run are the downloader's and one cut
    whose duration is the plain difference of the seconds, more than 0 and
    at most 43199. *)
Theorem parsed_request_is_cut (msg : string) (videoUrl : URL)
    (startSecond endSecond : Z) (audioOnly : bool) (url : string)
    (st st1 st2 : State World) (ytdlpPath file ffmpegPath : string)
    (ytdlpArgs : list string) (w : World) :
  LoadDownloadConfigFromMsg msg
  = (videoUrl, startSecond, endSecond, audioOnly, None) ->
  startSecond <> -1 ->
  BuildYtdlpCmd url audioOnly st = ((ytdlpPath, file, ytdlpArgs, None), st1) ->
  Run (exec_Command ytdlpPath ytdlpArgs) st1 = (None, st2) ->
  sys_LookPath "ffmpeg" (world st2) = ((ffmpegPath, None), w) ->
  0 < endSecond - startSecond <= 43199
  /\ exists final : string,
       ran (snd (DownloadVideo url startSecond endSecond audioOnly st))
       = (ran st
          ++ [exec_Command ytdlpPath ytdlpArgs;
              exec_Command ffmpegPath
                ["-ss"; Sprint startSecond; "-i"; file; "-t";
                 Sprint (endSecond - startSecond); final]])%list.
Proof.
  intros Hparse Hs Hplan Hrun Hlook.
  apply LoadDownloadConfigFromMsg_range in Hparse as [[E _] | (H0 & Hlt & Hmax)];
    [contradiction|].
  unfold maxSecond in Hmax. split; [lia|].
  destruct (CutVideo_ran file startSecond endSecond audioOnly st2 _ _ Hlook)
    as [final Hfinal].
  exists final.
  rewrite (DownloadVideo_after_download _ _ _ _ _ _ _ _ _ _ Hplan Hrun).
  unfold InvalidVideoSecond.
  rewrite (proj2 (Z.eqb_neq startSecond (-1)) Hs).
  rewrite (proj2 (Z.eqb_neq endSecond (-1))) by lia.
  cbn [negb andb].
  rewrite sub_exact in Hfinal by (apply small_inRange; lia).
  assert (Hran : ran st2 = (ran st ++ [exec_Command ytdlpPath ytdlpArgs])%list).
  { pose proof (Run_ran (exec_Command ytdlpPath ytdlpArgs) st1) as H.
    rewrite Hrun in H. simpl in H. rewrite H.
    now destruct (BuildYtdlpCmd_inv _ _ _ _ _ _ _ Hplan) as [-> _]. }
  destruct (CutVideo file startSecond endSecond audioOnly st2) as [[out err] st3].
  simpl in Hfinal |- *. rewrite Hfinal, Hran, <- app_assoc. reflexivity.
Qed.

End RequestProperties.

Lemma parsed_request_is_cut_witness :
  0 < 51 - 10 <= 43199
  /\ exists final : string,
       ran (snd (DownloadVideo (sys := Machine.system) "https://x/y" 10 51
                   false Machine.start))
       = (ran Machine.start
          ++ [Machine.downloadCmd;
              exec_Command "/usr/bin/ffmpeg"
                ["-ss"; Sprint 10; "-i"; "/tmp/gatonaranja.42.mp4"; "-t";
                 Sprint (51 - 10); final]])%list.
Proof.
  assert (Hs : 10 <> -1) by lia.
  exact (parsed_request_is_cut (net := Machine.net) (uni := Machine.uni)
           (sys := Machine.system) "https://x/y 0:10-0:51" "https://x/y"
           10 51 false "https://x/y" Machine.start Machine.start
           {| world := tt; ran := [Machine.downloadCmd] |}
           "/usr/bin/yt-dlp" "/tmp/gatonaranja.42.mp4" "/usr/bin/ffmpeg"
           ["-f"; "18"; "https://x/y"; "-o"; "/tmp/gatonaranja.42.mp4"] tt
           eq_refl Hs eq_refl eq_refl eq_refl).
Defined.

(** ** [Split], the pattern and the plan *)

Lemma Join_cons (c : ascii) (q : string) (qs : list string) (sep : ascii) :
  Join (String c q :: qs) sep = String c (Join (q :: qs) sep).
Proof. now destruct qs. Qed.

(** X20. The pieces of [Split] hold no separator, and put together again
    with the separator between them they give the string back. *)
Theorem Split_round_trip (s : string) (sep : ascii) :
  Join (Split s sep) sep = s
  /\ forall p : string, In p (Split s sep) -> contains sep p = false.
Proof.
  split; [|intros p; apply Split_pieces].
  induction s as [|c s IH]; simpl; [reflexivity|].
  destruct (Ascii.eqb_spec c sep) as [-> | Hc].
  - destruct (Split s sep) as [|q qs] eqn:E; [now apply Split_not_nil in E|].
    change (Join (EmptyString :: q :: qs) sep)
      with (String sep (Join (q :: qs) sep)).
    now rewrite IH.
  - destruct (Split s sep) as [|q qs] eqn:E; [now apply Split_not_nil in E|].
    now rewrite Join_cons, IH.
Qed.

Lemma Split_round_trip_witness :
  Join ["1"; "05-1"; "10"] ":" = "1:05-1:10"
  /\ contains ":" "05-1" = false.
Proof.
  destruct (Split_round_trip "1:05-1:10" ":") as [H1 H2].
  split; [exact H1|]. apply H2. simpl. tauto.
Defined.

Lemma Matches_Concat_inv (r1 r2 : regexp) (s : string) :
  Matches (Concat r1 r2) s ->
  exists s1 s2 : string, s = s1 ++ s2 /\ Matches r1 s1 /\ Matches r2 s2.
Proof. intros H. inversion H; subst. eauto. Qed.

Lemma Matches_Quest_inv (r : regexp) (s : string) :
  Matches (Quest r) s -> s = EmptyString \/ Matches r s.
Proof. intros H. inversion H; subst; auto. Qed.

Lemma Matches_Digit_inv (s : string) :
  Matches DigitClass s ->
  exists c : ascii, s = String c EmptyString /\ isDigit c = true.
Proof. intros H. inversion H; subst. eauto. Qed.

Lemma Matches_Literal_inv (c : ascii) (s : string) :
  Matches (Literal c) s -> s = String c EmptyString.
Proof. intros H. now inversion H. Qed.

Lemma Matches_segment_inv (d : string) :
  Matches (Repeat12 DigitClass) d -> segment d = true.
Proof.
  intros H. apply Matches_Concat_inv in H as (s1 & s2 & -> & H1 & H2).
  apply Matches_Digit_inv in H1 as (a & -> & Ha).
  apply Matches_Quest_inv in H2 as [-> | H2]; [exact Ha|].
  apply Matches_Digit_inv in H2 as (b & -> & Hb). simpl. now rewrite Ha, Hb.
Qed.

Lemma Matches_spot_inv (a : string) : Matches spotPattern a -> spotText a.
Proof.
  intros H. apply Matches_Concat_inv in H as (h & t & -> & Hh & Ht).
  apply Matches_Concat_inv in Ht as (m & t' & -> & Hm & Ht).
  apply Matches_Concat_inv in Ht as (c & s & -> & Hc & Hs).
  apply Matches_Literal_inv in Hc as ->.
  apply Matches_segment_inv in Hm, Hs.
  apply Matches_Quest_inv in Hh as [-> | Hh].
  - left. now exists m, s.
  - apply Matches_Concat_inv in Hh as (h' & c & -> & Hh & Hc).
    apply Matches_Literal_inv in Hc as ->.
    apply Matches_segment_inv in Hh.
    right. exists h', m, s. repeat (split; [assumption|]).
    now rewrite append_assoc.
Qed.

(** X21. The pattern denotes exactly the texts made of two spots around a
    dash, a spot being two or three segments of one or two digits between
    colons. *)
Theorem VideoStartEndPattern_shape (t : string) :
  Matches VideoStartEndPattern t <->
  exists a b : string, spotText a /\ spotText b /\ t = a ++ "-" ++ b.
Proof.
  split.
  - intros H. apply Matches_Concat_inv in H as (a & r & -> & Ha & Hr).
    apply Matches_Concat_inv in Hr as (c & b & -> & Hc & Hb).
    apply Matches_Literal_inv in Hc as ->.
    exists a, b. split; [now apply Matches_spot_inv|].
    split; [now apply Matches_spot_inv | reflexivity].
  - intros (a & b & Ha & Hb & ->).
    assert (S : forall x, spotText x -> Matches spotPattern x).
    { intros x [(m & s & Hm & Hs & ->) | (h & m & s & Hh & Hm & Hs & ->)];
        [now apply Matches_spot_two | now apply Matches_spot_three]. }
    apply MConcat; [now apply S|].
    apply (MConcat _ _ "-" b); [constructor | now apply S].
Qed.

(** X22. A minus sign is read by [Spot2Second]: with a minus before the
    first of two segments the minutes are negative and pass the test on 59
    whatever their number, and the spot resolves to its seconds less sixty
    times that number. *)
Theorem Spot2Second_signed (m s : string) :
  segment m = true -> segment s = true -> numeral s <= 59 ->
  Spot2Second ("-" ++ m ++ ":" ++ s) = (numeral s - numeral m * 60, None).
Proof.
  intros Hm Hs Bs.
  destruct (Atoi_segment s Hs) as [As Rs].
  assert (Am : Atoi (String "-" m) = (- numeral m, None)
               /\ 0 <= numeral m <= 99).
  { clear - Hm.
    apply segment_cases in Hm as [(a & -> & Ha) | (a & b & -> & Ha & Hb)].
    - apply isDigit_cases in Ha. simpl in Ha.
      repeat (destruct Ha as [<- | Ha]; [vm_compute; intuition congruence|]).
      contradiction.
    - apply isDigit_cases in Ha. apply isDigit_cases in Hb. simpl in Ha, Hb.
      repeat (destruct Ha as [<- | Ha];
              [repeat (destruct Hb as [<- | Hb]; [vm_compute; intuition congruence|]);
               contradiction|]).
      contradiction. }
  destruct Am as [Am Rm].
  assert (HS : Split ("-" ++ m ++ ":" ++ s) ":" = [String "-" m; s]).
  { change ("-" ++ m ++ ":" ++ s) with (String "-" m ++ String ":" s).
    rewrite Split_append
      by (simpl; now rewrite (segment_contains ":" m) by easy).
    now rewrite Split_without by now apply segment_contains. }
  unfold Spot2Second. rewrite HS.
  change (index [String "-" m; s] 1) with s.
  change (index [String "-" m; s] 0) with (String "-" m).
  rewrite As, Am. simpl.
  rewrite (proj2 (Z.ltb_ge 59 (numeral s))) by lia.
  rewrite (proj2 (Z.ltb_ge 59 (- numeral m))) by lia.
  unfold GoInt.add, GoInt.mul.
  assert (R : forall z, -1000000 <= z <= 1000000 -> GoInt.wrap z = z).
  { intros z Hz. apply wrap_inRange.
    unfold GoInt.inRange, GoInt.minInt, GoInt.maxInt, GoInt.intSize.
    change (2 ^ (64 - 1)) with 9223372036854775808. lia. }
  rewrite (R (- numeral m * 60)) by lia. rewrite R by lia.
  f_equal. lia.
Qed.

Lemma Spot2Second_signed_witness :
  Spot2Second "-99:10" = (-5930, None).
Proof.
  apply (Spot2Second_signed "99" "10"); vm_compute; congruence.
Defined.

Section PlanProperties.

Context {World : Type} {sys : System World}.

(** X23. A plan that fails is empty: no tool path, no output path and no
    argument come with the error, and no command has been run. *)
Theorem BuildYtdlpCmd_failure (videoUrl : string) (audioOnly : bool)
    (st st' : State World) (ytdlpPath outputFilename reason : string)
    (ytdlpArgs : list string) :
  BuildYtdlpCmd videoUrl audioOnly st
  = ((ytdlpPath, outputFilename, ytdlpArgs, Some reason), st') ->
  ytdlpPath = EmptyString /\ outputFilename = EmptyString /\ ytdlpArgs = []
  /\ ran st' = ran st.
Proof.
  unfold BuildYtdlpCmd, os_CreateTemp, exec_LookPath, Close, os_Remove,
    liftSys, bind, ret.
  rewrite gatonaranja_pattern. unfold bind, liftSys, ret.
  destruct (sys_LookPath "yt-dlp" (world st)) as [[p e0] w0].
  destruct e0; [now intros [= <- <- <- <- <-]|]. cbn [world ran].
  destruct (sys_OpenTemp "" "gatonaranja." ".mp4" w0) as [[stem e1] w1].
  destruct e1; [now intros [= <- <- <- <- <-]|]. cbn [world ran].
  destruct (sys_Remove (stem ++ ".mp4") (sys_Close (stem ++ ".mp4") w1)) as [e2 w2].
  destruct e2; [now intros [= <- <- <- <- <-] | discriminate].
Qed.

End PlanProperties.

Lemma BuildYtdlpCmd_failure_witness :
  EmptyString = EmptyString /\ EmptyString = EmptyString
  /\ @nil string = [] /\ ran Machine.start = ran Machine.start.
Proof.
  exact (BuildYtdlpCmd_failure (sys := Host.offline) "https://x/y" false
           Machine.start Machine.start EmptyString EmptyString
           "yt-dlp is not installed: not found" [] eq_refl).
Defined.
